(** * Image metadata analyzer: the extractors of [streamlit_app.py]

    A shallow embedding of the Python module [streamlit_app.py] and the
    properties its specification states about it.

    The file has three layers.
    - [Float64]: Python's [float] as IEEE 754 binary64, on the standard
      library's executable specification [spec_float], with the operations
      the program uses ([+], [/], unary [-], [float(int)], [round(x, n)]).
    - [Py]: the fragment of the Python object model the program touches:
      values, exceptions as results, truthiness, subscripting, [in],
      [dict.get], [str.upper], [str.strip], [bytes.decode(errors="ignore")],
      [str.rsplit], [json.dumps].
    - [App]: the functions of the module, one definition per Python
      function, under the Python names.

    What the program calls but does not define (the text parser behind
    [float(str)], the upper-case forms of non-ASCII letters, [repr] of a
    float, Pillow's tag table, the IPTC, OCR and language libraries, the
    capability flags set at import time) is collected in the classes
    [Runtime] and [Libraries]; every theorem holds for all their
    instances. *)

From Stdlib Require Import String Ascii.
From Stdlib Require Import ZArith NArith List Bool Lia.
From Stdlib Require Import Floats DecimalString.
Import ListNotations.

Set Implicit Arguments.
Set Warnings "-register-all".

(** ** Binary64 floating point *)

Module Float64.

Open Scope Z_scope.

(** A Python [float].  [prec = 53] and [emax = 1024] are the binary64
    parameters of [FloatOps]. *)
Definition float := spec_float.

Definition pos_zero : float := S754_zero false.
Definition neg_zero : float := S754_zero true.
Definition nan : float := S754_nan.

Definition fadd : float -> float -> float := SFadd prec emax.
Definition fdiv : float -> float -> float := SFdiv prec emax.
Definition fneg : float -> float := SFopp.

(** [x <= y] and [x == y] on floats, false as soon as one side is NaN. *)
Definition fleb : float -> float -> bool := SFleb.
Definition feqb : float -> float -> bool := SFeqb.

(** The nearest binary64 to the integer [n], ties to even; an infinity when
    [n] is out of range. *)
Definition of_Z (n : Z) : float := binary_normalize prec emax n 0 false.

(** The nearest binary64 to the fraction [p/d], ties to even, with sign
    [s]: the division step of [SFdiv] on two integers of any size. *)
Definition of_ratio (s : bool) (p d : positive) : float :=
  let '(q, e, l) := SFdiv_core_binary prec emax (Zpos p) 0 (Zpos d) 0 in
  binary_round_aux prec emax s q e l.

(** The literals of the program. *)
Definition f0 : float := pos_zero.
Definition f60 : float := Eval vm_compute in of_Z 60.
Definition f3600 : float := Eval vm_compute in of_Z 3600.

Definition is_nan (x : float) : bool :=
  match x with S754_nan => true | _ => false end.

Definition is_zero (x : float) : bool :=
  match x with S754_zero _ => true | _ => false end.

Definition is_finite (x : float) : bool :=
  match x with S754_zero _ | S754_finite _ _ _ => true | _ => false end.

(** [num/den] rounded to the nearest integer, ties to the even one
    ([0 <= num], [0 < den]). *)
Definition div_half_even (num den : Z) : Z :=
  let (q, r) := Z.div_eucl num den in
  match 2 * r ?= den with
  | Lt => q
  | Gt => q + 1
  | Eq => if Z.even q then q else q + 1
  end.

(** [m * 2^e * 10^nd] rounded to the nearest integer, ties to even. *)
Definition scaled_half_even (nd : Z) (m : positive) (e : Z) : Z :=
  match e with
  | Zneg k => div_half_even (Zpos m * 10 ^ nd) (2 ^ Zpos k)
  | _ => Zpos m * 2 ^ e * 10 ^ nd
  end.

(** [round(x, nd)] for [0 <= nd] (CPython's [float.__round__] with a second
    argument): NaN and the infinities round to themselves; a finite [x] is
    first rounded, half to even on its exact value, to the decimal [n/10^nd]
    with [nd] digits after the point, and the result is the binary64 nearest
    to that decimal, with the sign of [x] (so a negative [x] that rounds to
    zero gives [-0.0]). *)
Definition round_ndigits (nd : Z) (x : float) : float :=
  match x with
  | S754_finite s m e =>
      match scaled_half_even nd m e with
      | Zpos n => of_ratio s n (Z.to_pos (10 ^ nd))
      | _ => S754_zero s
      end
  | _ => x
  end.

(** The exact value of a finite float as a fraction [(numerator,
    denominator)]; [None] for NaN and the infinities. *)
Definition to_fraction (x : float) : option (Z * Z) :=
  match x with
  | S754_zero _ => Some (0, 1)
  | S754_finite s m e =>
      let n := if s then Zneg m else Zpos m in
      match e with
      | Zneg k => Some (n, 2 ^ Zpos k)
      | _ => Some (n * 2 ^ e, 1)
      end
  | _ => None
  end.

(** [x] is not NaN and is a zero or carries the sign bit [s]. *)
Definition sign_is (s : bool) (x : float) : bool :=
  match x with
  | S754_zero _ => true
  | S754_infinity t | S754_finite t _ _ => Bool.eqb s t
  | S754_nan => false
  end.

(** The decimal [n / 10^nd] ([0 <= n]) with sign [s], as a float. *)
Definition decimal (s : bool) (n : Z) (nd : Z) : float :=
  match n with
  | Zpos p => of_ratio s p (Z.to_pos (10 ^ nd))
  | _ => S754_zero s
  end.

(** [x] is a float rounded to [nd] decimal places: what is finite is the
    float of a decimal with [nd] digits after the point. *)
Definition is_rounded (nd : Z) (x : float) : Prop :=
  is_finite x = false \/ exists s n, (0 <= n)%Z /\ x = decimal s n nd.

(** [lo <= x <= hi] with Python's comparisons (false on NaN). *)
Definition between (lo hi x : float) : bool := fleb lo x && fleb x hi.

End Float64.

(** ** The Python object model, as far as the program uses it *)

Module Py.

Import Float64.

(** A [str] is its sequence of code points, a [bytes] its sequence of
    bytes. *)
Definition str := list N.
Definition bytes := list Byte.byte.

(** A string literal of the program (ASCII). *)
Definition lit (s : string) : str := map N_of_ascii (list_ascii_of_string s).

Fixpoint str_eqb (a b : str) : bool :=
  match a, b with
  | [], [] => true
  | x :: a', y :: b' => N.eqb x y && str_eqb a' b'
  | _, _ => false
  end.

(** *** Exceptions

    The subclasses of [Exception] that the built-ins used here raise, and
    [LibraryError] for whatever a third-party call raises.  Every handler of
    the program is [except Exception], which catches all of them. *)
Inductive exn :=
| TypeError
| ValueError
| AttributeError
| KeyError
| IndexError
| ZeroDivisionError
| OverflowError
| LibraryError (code : nat).

(** The outcome of evaluating an expression or running a function body. *)
Inductive result (A : Type) :=
| Return (a : A)
| Raise (e : exn).

Arguments Return {A} a.
Arguments Raise {A} e.

Definition bind {A B} (c : result A) (k : A -> result B) : result B :=
  match c with
  | Return a => k a
  | Raise e => Raise e
  end.

(** [try: c  except Exception: h]. *)
Definition try_except {A} (c : result A) (h : result A) : result A :=
  match c with
  | Return a => Return a
  | Raise _ => h
  end.

Definition raises {A} (c : result A) : bool :=
  match c with Raise _ => true | Return _ => false end.

Declare Scope py_scope.
Delimit Scope py_scope with py.
Notation "x <- c ;; k" := (bind c (fun x => k))
  (at level 61, c at next level, right associativity) : py_scope.
Notation "'try' c 'except' h" := (try_except c h)
  (at level 61, c at level 60, h at level 60) : py_scope.

(** *** Values *)

(** Dictionary keys: the program and Pillow only use integers (tag ids)
    and strings (tag names). *)
Inductive key :=
| KInt (n : Z)
| KStr (s : str).

Inductive value :=
| VNone
| VBool (b : bool)
| VInt (n : Z)
| VFloat (x : float)
| VStr (s : str)
| VBytes (b : bytes)
| VTuple (xs : list value)
| VList (xs : list value)
| VDict (d : list (key * value)).

(** A dictionary, in insertion order, each key at most once in a
    dictionary built by [dict_set]. *)
Definition dict := list (key * value).

Definition key_eqb (a b : key) : bool :=
  match a, b with
  | KInt m, KInt n => Z.eqb m n
  | KStr s, KStr t => str_eqb s t
  | _, _ => false
  end.

Fixpoint dict_get (d : dict) (k : key) : option value :=
  match d with
  | [] => None
  | (k', v) :: d' => if key_eqb k' k then Some v else dict_get d' k
  end.

Definition dict_mem (d : dict) (k : key) : bool :=
  match dict_get d k with Some _ => true | None => false end.

(** [d[k] = v]: the value of an existing key is replaced where it stands,
    a new key is added at the end. *)
Fixpoint dict_set (d : dict) (k : key) (v : value) : dict :=
  match d with
  | [] => [(k, v)]
  | (k', v') :: d' =>
      if key_eqb k' k then (k', v) :: d' else (k', v') :: dict_set d' k v
  end.

(** [bool(v)], as [if v] and [not v] compute it. *)
Definition truthy (v : value) : bool :=
  match v with
  | VNone => false
  | VBool b => b
  | VInt n => negb (Z.eqb n 0)
  | VFloat x => negb (is_zero x)
  | VStr s => negb (Nat.eqb (length s) 0)
  | VBytes b => negb (Nat.eqb (length b) 0)
  | VTuple xs => negb (Nat.eqb (length xs) 0)
  | VList xs => negb (Nat.eqb (length xs) 0)
  | VDict d => negb (Nat.eqb (length d) 0)
  end.

(** [n == v] for an integer [n]: numbers compare by exact value, anything
    else differs from an integer. *)
Definition int_eq_value (n : Z) (v : value) : bool :=
  match v with
  | VInt m => Z.eqb n m
  | VBool b => Z.eqb n (if b then 1 else 0)
  | VFloat x =>
      match to_fraction x with
      | Some (a, b) => Z.eqb a (n * b)
      | None => false
      end
  | _ => false
  end.

(** [n in v] for an integer [n]. *)
Definition contains_int (n : Z) (v : value) : result bool :=
  match v with
  | VDict d => Return (dict_mem d (KInt n))
  | VTuple xs | VList xs => Return (existsb (int_eq_value n) xs)
  | VBytes b =>
      if (0 <=? n)%Z && (n <? 256)%Z
      then Return (existsb (fun c => Z.eqb n (Z.of_N (Byte.to_N c))) b)
      else Raise ValueError
  | _ => Raise TypeError
  end.

(** [v.get(k, default)]: only a dictionary has the method. *)
Definition method_get (v : value) (k : key) (default : value) : result value :=
  match v with
  | VDict d =>
      Return (match dict_get d k with Some x => x | None => default end)
  | _ => Raise AttributeError
  end.

(** [v[i]] for a literal index [i >= 0]. *)
Definition getitem (v : value) (i : nat) : result value :=
  match v with
  | VTuple xs | VList xs =>
      match nth_error xs i with Some x => Return x | None => Raise IndexError end
  | VStr s =>
      match nth_error s i with Some c => Return (VStr [c]) | None => Raise IndexError end
  | VBytes b =>
      match nth_error b i with
      | Some c => Return (VInt (Z.of_N (Byte.to_N c)))
      | None => Raise IndexError
      end
  | VDict d =>
      match dict_get d (KInt (Z.of_nat i)) with
      | Some x => Return x
      | None => Raise KeyError
      end
  | _ => Raise TypeError
  end.

(** [a / b] on floats. *)
Definition float_truediv (a b : float) : result float :=
  if is_zero b then Raise ZeroDivisionError else Return (fdiv a b).

(** [float(n)] for an integer. *)
Definition float_of_int (n : Z) : result float :=
  match of_Z n with
  | S754_infinity _ => Raise OverflowError
  | x => Return x
  end.

(** *** Text *)

Definition is_continuation (b : N) : bool := (128 <=? b)%N && (b <? 192)%N.

(** The second byte of a three- and of a four-byte sequence: a
    continuation byte that makes the sequence neither overlong, nor a
    surrogate, nor larger than U+10FFFF. *)
Definition second_of_three (b0 b1 : N) : bool :=
  is_continuation b1
  && negb ((b0 =? 224)%N && (b1 <? 160)%N)
  && negb ((b0 =? 237)%N && (160 <=? b1)%N).

Definition second_of_four (b0 b1 : N) : bool :=
  is_continuation b1
  && negb ((b0 =? 240)%N && (b1 <? 144)%N)
  && negb ((b0 =? 244)%N && (144 <=? b1)%N).

(** UTF-8 decoding that drops what does not decode: an invalid start byte
    is dropped alone, a sequence cut by a non-continuation byte is dropped
    up to that byte, a sequence cut by the end of the input is dropped. *)
Fixpoint utf8_ignore (bs : list N) : str :=
  match bs with
  | [] => []
  | b0 :: r0 =>
      if (b0 <? 128)%N then b0 :: utf8_ignore r0
      else if (b0 <? 194)%N then utf8_ignore r0
      else if (b0 <? 224)%N then
        match r0 with
        | [] => []
        | b1 :: r1 =>
            if is_continuation b1
            then ((b0 - 192) * 64 + (b1 - 128))%N :: utf8_ignore r1
            else utf8_ignore r0
        end
      else if (b0 <? 240)%N then
        match r0 with
        | [] => []
        | b1 :: r1 =>
            if second_of_three b0 b1 then
              match r1 with
              | [] => []
              | b2 :: r2 =>
                  if is_continuation b2
                  then ((b0 - 224) * 4096 + (b1 - 128) * 64 + (b2 - 128))%N
                       :: utf8_ignore r2
                  else utf8_ignore r1
              end
            else utf8_ignore r0
        end
      else if (b0 <? 245)%N then
        match r0 with
        | [] => []
        | b1 :: r1 =>
            if second_of_four b0 b1 then
              match r1 with
              | [] => []
              | b2 :: r2 =>
                  if is_continuation b2 then
                    match r2 with
                    | [] => []
                    | b3 :: r3 =>
                        if is_continuation b3
                        then ((b0 - 240) * 262144 + (b1 - 128) * 4096
                              + (b2 - 128) * 64 + (b3 - 128))%N
                             :: utf8_ignore r3
                        else utf8_ignore r2
                    end
                  else utf8_ignore r1
              end
            else utf8_ignore r0
        end
      else utf8_ignore r0
  end.

(** [b.decode(errors="ignore")] and [b.decode("utf-8", errors="ignore")]. *)
Definition decode_ignore (b : bytes) : str := utf8_ignore (map Byte.to_N b).

(** The characters [str.strip()] removes: [str.isspace]. *)
Definition is_space (c : N) : bool :=
  ((9 <=? c) && (c <=? 13) || (28 <=? c) && (c <=? 32)
   || (c =? 133) || (c =? 160) || (c =? 5760)
   || (8192 <=? c) && (c <=? 8202)
   || (c =? 8232) || (c =? 8233) || (c =? 8239) || (c =? 8287)
   || (c =? 12288))%N.

Fixpoint lstrip (s : str) : str :=
  match s with
  | c :: s' => if is_space c then lstrip s' else s
  | [] => []
  end.

(** [s.strip()]. *)
Definition strip (s : str) : str := rev (lstrip (rev (lstrip s))).

(** [s.rsplit(sep, 1)[0]] for a one-character [sep]: what stands before the
    last [sep], the whole of [s] when it has none.  [before_last] returns
    [None] when [sep] does not occur. *)
Fixpoint before_last (sep : N) (s : str) : option str :=
  match s with
  | [] => None
  | c :: s' =>
      match before_last sep s' with
      | Some p => Some (c :: p)
      | None => if (c =? sep)%N then Some [] else None
      end
  end.

Definition rsplit1_head (sep : N) (s : str) : str :=
  match before_last sep s with Some p => p | None => s end.

(** [str(n)] for an integer. *)
Definition str_of_int (n : Z) : str :=
  lit (DecimalString.NilZero.string_of_int (Z.to_int n)).

(** [acc[f(x)] = g(x)] for every [x] of [l], in order: a dictionary
    filled in a loop. *)
Definition fill {A : Type} (f : A -> str) (g : A -> value) (l : list A) (acc : dict)
  : dict :=
  fold_left (fun acc x => dict_set acc (KStr (f x)) (g x)) l acc.

(** *** What the runtime provides and this file leaves open *)

Class Runtime := {
  (** [float(s)] for a [str]: the parsed number, [None] for [ValueError]. *)
  float_of_str : str -> option float;
  (** [float(b)] for a [bytes]. *)
  float_of_bytes : bytes -> option float;
  (** the upper-case form, one or more code points, of a code point from
      128 on (the Unicode character database) *)
  upper_nonascii : N -> list N;
  (** [repr(x)] of a finite float, which [str(x)], f-strings and [json]
      use *)
  float_repr : float -> str;
  (** [str(v)] *)
  value_str : value -> str
}.

Section WithRuntime.

Context {rt : Runtime}.

(** [float(v)]. *)
Definition float_of (v : value) : result float :=
  match v with
  | VFloat x => Return x
  | VInt n => float_of_int n
  | VBool b => Return (if b then of_Z 1 else pos_zero)
  | VStr s =>
      match float_of_str s with Some x => Return x | None => Raise ValueError end
  | VBytes b =>
      match float_of_bytes b with Some x => Return x | None => Raise ValueError end
  | _ => Raise TypeError
  end.

Definition upper_char (c : N) : list N :=
  if (97 <=? c)%N && (c <=? 122)%N then [(c - 32)%N]
  else if (c <? 128)%N then [c]
  else upper_nonascii c.

(** [s.upper()]. *)
Definition upper (s : str) : str := flat_map upper_char s.

Definition bytes_upper_char (c : Byte.byte) : Byte.byte :=
  let n := Byte.to_N c in
  if (97 <=? n)%N && (n <=? 122)%N
  then match Byte.of_N (n - 32) with Some u => u | None => c end
  else c.

(** [v.upper()]: a method of [str] and of [bytes] only. *)
Definition method_upper (v : value) : result value :=
  match v with
  | VStr s => Return (VStr (upper s))
  | VBytes b => Return (VBytes (map bytes_upper_char b))
  | _ => Raise AttributeError
  end.

(** [v == s] for a string literal [s]. *)
Definition eq_str (v : value) (s : str) : bool :=
  match v with
  | VStr t => str_eqb t s
  | _ => false
  end.

(** *** [json.dumps(v, ensure_ascii=False, indent=2)] *)

Definition hex_digit (n : N) : N := if (n <? 10)%N then (48 + n)%N else (87 + n)%N.

(** A character inside a JSON string: the quote, the backslash and the
    control characters are escaped, everything else stands for itself. *)
Definition json_escape (c : N) : str :=
  if (c =? 34)%N then lit "\" ++ [34%N]
  else if (c =? 92)%N then lit "\\"
  else if (c =? 8)%N then lit "\b"
  else if (c =? 12)%N then lit "\f"
  else if (c =? 10)%N then lit "\n"
  else if (c =? 13)%N then lit "\r"
  else if (c =? 9)%N then lit "\t"
  else if (c <? 32)%N then lit "\u00" ++ [hex_digit (c / 16); hex_digit (c mod 16)]
  else [c].

Definition json_string (s : str) : str := [34%N] ++ flat_map json_escape s ++ [34%N].

Definition json_float (x : float) : str :=
  match x with
  | S754_nan => lit "NaN"
  | S754_infinity false => lit "Infinity"
  | S754_infinity true => lit "-Infinity"
  | _ => float_repr x
  end.

(** A dictionary key becomes a JSON string. *)
Definition json_key (k : key) : str :=
  match k with
  | KInt n => json_string (str_of_int n)
  | KStr s => json_string s
  end.

(** A line break followed by the indentation of nesting depth [level]. *)
Definition newline_indent (level : nat) : str := 10%N :: repeat 32%N (2 * level).

Fixpoint join (sep : str) (parts : list str) : str :=
  match parts with
  | [] => []
  | [p] => p
  | p :: ps => p ++ sep ++ join sep ps
  end.

Definition json_block (opening closing : string) (level : nat) (items : list str) : str :=
  match items with
  | [] => lit opening ++ lit closing
  | _ =>
      lit opening ++ newline_indent (S level)
      ++ join (lit "," ++ newline_indent (S level)) items
      ++ newline_indent level ++ lit closing
  end.

(** The encoder: a [bytes] anywhere in [v] is not serializable and raises
    [TypeError]. *)
Fixpoint json_encode (level : nat) (v : value) {struct v} : result str :=
  match v with
  | VNone => Return (lit "null")
  | VBool b => Return (if b then lit "true" else lit "false")
  | VInt n => Return (str_of_int n)
  | VFloat x => Return (json_float x)
  | VStr s => Return (json_string s)
  | VBytes _ => Raise TypeError
  | VTuple xs | VList xs =>
      items <- (fix encode_all (l : list value) : result (list str) :=
                  match l with
                  | [] => Return []
                  | x :: l' =>
                      e <- json_encode (S level) x ;;
                      es <- encode_all l' ;;
                      Return (e :: es)
                  end) xs ;;
      Return (json_block "[" "]" level items)
  | VDict d =>
      items <- (fix encode_all (l : list (key * value)) : result (list str) :=
                  match l with
                  | [] => Return []
                  | (k, x) :: l' =>
                      e <- json_encode (S level) x ;;
                      es <- encode_all l' ;;
                      Return ((json_key k ++ lit ": " ++ e) :: es)
                  end) d ;;
      Return (json_block "{" "}" level items)
  end%py.

Definition json_dumps (v : value) : result str := json_encode 0 v.

End WithRuntime.

(** *** [s.encode("utf-8")] *)

Definition byte_of_N (n : N) : Byte.byte :=
  match Byte.of_N n with Some b => b | None => Byte.x00 end.

Definition utf8_char (c : N) : result (list N) :=
  if (c <? 128)%N then Return [c]
  else if (c <? 2048)%N then Return [192 + c / 64; 128 + c mod 64]%N
  else if (55296 <=? c)%N && (c <? 57344)%N then Raise ValueError
  else if (c <? 65536)%N
  then Return [224 + c / 4096; 128 + (c / 64) mod 64; 128 + c mod 64]%N
  else Return [240 + c / 262144; 128 + (c / 4096) mod 64;
               128 + (c / 64) mod 64; 128 + c mod 64]%N.

(** A surrogate code point cannot be encoded ([UnicodeEncodeError], a
    [ValueError]). *)
Fixpoint utf8_encode (s : str) : result bytes :=
  match s with
  | [] => Return []
  | c :: s' =>
      b <- utf8_char c ;;
      bs <- utf8_encode s' ;;
      Return (map byte_of_N b ++ bs)
  end%py.

End Py.

(** ** The program *)

Module App.

Import Float64 Py.
Local Open Scope py_scope.

(** A [PIL.Image.Image], as far as the program looks at it.  [_getexif] is
    [None] for an image class without the attribute and otherwise the
    outcome of the call [image._getexif()]: an exception, or [None], or a
    dictionary from tag ids to values. *)
Record Image := {
  _getexif : option (result (option dict));
  format : value;
  width : Z;
  height : Z;
  mode : value
}.

(** An [IPTCInfo] object: the keys that iterating over it yields, the
    exception that ends the iteration if one does, and [info[key]]. *)
Record IPTCInfo_object := {
  iptc_keys : list key;
  iptc_iter_error : option exn;
  iptc_getitem : key -> result value
}.

(** The third-party libraries and the three flags that the module sets
    once, when it is imported. *)
Class Libraries := {
  (** [PIL.ExifTags.TAGS], the table from tag ids to tag names *)
  TAGS : Z -> option str;
  external_ocr_available : bool;
  language_detection_available : bool;
  iptc_available : bool;
  (** [IPTCInfo(io.BytesIO(image_bytes), force=True)] *)
  IPTCInfo : bytes -> result IPTCInfo_object;
  (** [pytesseract.image_to_string(image)] *)
  image_to_string : Image -> result str;
  (** [langdetect.detect(text)] *)
  detect : str -> result str
}.

Section Program.

Context {rt : Runtime} {libs : Libraries}.

(** [ExifTags.TAGS.get(tag_id, str(tag_id))]: the table has integer keys
    only. *)
Definition tag_name (tag_id : key) : str :=
  match tag_id with
  | KInt n => match TAGS n with Some name => name | None => str_of_int n end
  | KStr s => s
  end.

(** The loop of [decode_exif]: [exif_data[tag_name] = value] for every
    item of [raw_exif], in order. *)
Definition decode_items (raw_exif : dict) (exif_data : dict) : dict :=
  fold_left (fun acc item => dict_set acc (KStr (tag_name (fst item))) (snd item))
            raw_exif exif_data.

(** [decode_exif]; its local [tag_map] is never read and is left out. *)
Definition decode_exif (image : Image) : result dict :=
  match _getexif image with
  | None => Return []
  | Some call =>
      r <- call ;;
      let raw_exif := match r with Some d => d | None => [] end in
      if negb (truthy (VDict raw_exif)) then Return []
      else Return (decode_items raw_exif [])
  end.

(** The body of the [try] of [_rational_to_float]. *)
Definition rational_to_float_try (r : value) : result float :=
  match r with
  | VTuple xs =>
      if Nat.eqb (List.length xs) 2 then
        d <- getitem r 1 ;;
        if truthy d then
          n <- getitem r 0 ;;
          a <- float_of n ;;
          d' <- getitem r 1 ;;
          b <- float_of d' ;;
          float_truediv a b
        else Return f0
      else float_of r
  | _ => float_of r
  end.

Definition _rational_to_float (r : value) : result float :=
  try rational_to_float_try r except Return f0.

(** [lat_ref.decode(errors="ignore")] when [lat_ref] is a [bytes]. *)
Definition decode_if_bytes (ref : value) : value :=
  match ref with
  | VBytes b => VStr (decode_ignore b)
  | _ => ref
  end.

(** [deg + (min / 60.0) + (sec / 3600.0)]. *)
Definition decimal_degrees (deg min sec : float) : result float :=
  m <- float_truediv min f60 ;;
  s <- float_truediv sec f3600 ;;
  Return (fadd (fadd deg m) s).

(** The body of the [try] of [extract_gps_from_exif]. *)
Definition gps_try (lat_ref lon_ref lat_vals lon_vals : value)
  : result (option (float * float)) :=
  v <- getitem lat_vals 0 ;; lat_deg <- _rational_to_float v ;;
  v <- getitem lat_vals 1 ;; lat_min <- _rational_to_float v ;;
  v <- getitem lat_vals 2 ;; lat_sec <- _rational_to_float v ;;
  v <- getitem lon_vals 0 ;; lon_deg <- _rational_to_float v ;;
  v <- getitem lon_vals 1 ;; lon_min <- _rational_to_float v ;;
  v <- getitem lon_vals 2 ;; lon_sec <- _rational_to_float v ;;
  lat <- decimal_degrees lat_deg lat_min lat_sec ;;
  lon <- decimal_degrees lon_deg lon_min lon_sec ;;
  let lat_ref := decode_if_bytes lat_ref in
  let lon_ref := decode_if_bytes lon_ref in
  u <- method_upper lat_ref ;;
  let lat := if eq_str u (lit "S") then fneg lat else lat in
  u <- method_upper lon_ref ;;
  let lon := if eq_str u (lit "W") then fneg lon else lon in
  Return (Some (round_ndigits 7 lat, round_ndigits 7 lon)).

(** [extract_gps_from_exif]; its local [gps_tags] is never read and is
    left out.  The pair it returns is an [option]: [None] is Python's
    [None]. *)
Definition extract_gps_from_exif (exif : dict) : result (option (float * float)) :=
  let gps_ifd :=
    match dict_get exif (KStr (lit "GPSInfo")) with Some v => v | None => VNone end in
  if negb (truthy gps_ifd) then Return None
  else
    has_lat <- contains_int 2 gps_ifd ;;
    has_both <- (if has_lat then contains_int 4 gps_ifd else Return false) ;;
    if has_both then
      lat_ref <- method_get gps_ifd (KInt 1) (VStr (lit "N")) ;;
      lon_ref <- method_get gps_ifd (KInt 3) (VStr (lit "E")) ;;
      lat_vals <- method_get gps_ifd (KInt 2) VNone ;;
      lon_vals <- method_get gps_ifd (KInt 4) VNone ;;
      if negb (truthy lat_vals) || negb (truthy lon_vals) then Return None
      else try gps_try lat_ref lon_ref lat_vals lon_vals except Return None
    else Return None.

(** [str(key)] for a key. *)
Definition str_of_key (k : key) : str :=
  match k with
  | KInt n => str_of_int n
  | KStr s => s
  end.

(** One turn of the loop of [extract_iptc], with its inner [try]: a
    [bytes] value is decoded, any other value is kept; the handler stores
    [str(value)]. *)
Definition iptc_step (info : IPTCInfo_object) (iptc_data : dict) (k : key)
  : result dict :=
  v <- iptc_getitem info k ;;
  try (let serializable :=
         match v with
         | VBytes b => VStr (decode_ignore b)
         | _ => v
         end in
       Return (dict_set iptc_data (KStr (str_of_key k)) serializable))
  except Return (dict_set iptc_data (KStr (str_of_key k)) (VStr (value_str v))).

Fixpoint iptc_loop (info : IPTCInfo_object) (keys : list key) (iptc_data : dict)
  : result dict :=
  match keys with
  | [] =>
      match iptc_iter_error info with
      | Some e => Raise e
      | None => Return iptc_data
      end
  | k :: keys' =>
      iptc_data' <- iptc_step info iptc_data k ;;
      iptc_loop info keys' iptc_data'
  end.

Definition extract_iptc (image_bytes : bytes) : result dict :=
  if negb iptc_available then Return []
  else
    try (info <- IPTCInfo image_bytes ;;
         iptc_loop info (iptc_keys info) [])
    except Return [].

Definition perform_ocr (image : Image) : result str :=
  if negb external_ocr_available then Return []
  else try image_to_string image except Return [].

Definition detect_language (text : str) : result (option str) :=
  if negb language_detection_available || negb (truthy (VStr (strip text)))
  then Return None
  else try (code <- detect text ;; Return (Some code)) except Return None.

Definition google_maps_link (lat lon : float) : str :=
  lit "https://www.google.com/maps?q=" ++ float_repr lat ++ lit "," ++ float_repr lon.

(** *** The export of [main]

    [main] is modelled from the upload on, for an image that
    [Image.open] and [convert] have produced, and as far as the document
    it hands to [st.download_button]; what it draws on the page is left
    out. *)

Record UploadedFile := {
  name : str;
  read : bytes
}.

(** [meta_summary], as it stands when it is serialized. *)
Definition meta_summary (uploaded_file : UploadedFile) (original_image : Image)
    (exif iptc : dict) (gps : option (float * float))
    (ocr_text : str) (lang_code : option str) : dict :=
  let m :=
    [ (KStr (lit "file_name"), VStr (name uploaded_file));
      (KStr (lit "format"), format original_image);
      (KStr (lit "size"),
       VDict [ (KStr (lit "width"), VInt (width original_image));
               (KStr (lit "height"), VInt (height original_image)) ]);
      (KStr (lit "mode"), mode original_image);
      (KStr (lit "exif"), VDict exif);
      (KStr (lit "iptc"), VDict iptc) ] in
  let m :=
    match gps with
    | Some (lat, lon) =>
        dict_set m (KStr (lit "gps"))
          (VDict [ (KStr (lit "latitude"), VFloat lat);
                   (KStr (lit "longitude"), VFloat lon);
                   (KStr (lit "maps_link"), VStr (google_maps_link lat lon)) ])
    | None => m
    end in
  let m := dict_set m (KStr (lit "ocr_text")) (VStr ocr_text) in
  dict_set m (KStr (lit "ocr_language"))
    (match lang_code with Some code => VStr code | None => VNone end).

(** The [file_name] argument of the download button. *)
Definition export_file_name (uploaded_file : UploadedFile) : str :=
  rsplit1_head 46 (name uploaded_file) ++ lit "_metadata.json".

(** The text recognized in [main]. *)
Definition main_ocr_text (image_rgb : Image) (ocr_enabled : bool) : result str :=
  if ocr_enabled && external_ocr_available then perform_ocr image_rgb
  else Return [].

(** The language code found in [main]. *)
Definition main_lang_code (ocr_text : str) (lang_detect_enabled : bool)
  : result (option str) :=
  if lang_detect_enabled && truthy (VStr (strip ocr_text))
     && language_detection_available
  then detect_language ocr_text
  else Return None.

(** The document [main] exports: the [data] and the [file_name] it passes
    to [st.download_button]. *)
Definition main (uploaded_file : UploadedFile) (original_image image_rgb : Image)
    (ocr_enabled lang_detect_enabled : bool) : result (bytes * str) :=
  let image_bytes := read uploaded_file in
  exif <- decode_exif original_image ;;
  gps <- extract_gps_from_exif exif ;;
  iptc <- extract_iptc image_bytes ;;
  ocr_text <- main_ocr_text image_rgb ocr_enabled ;;
  lang_code <- main_lang_code ocr_text lang_detect_enabled ;;
  doc <- json_dumps
           (VDict (meta_summary uploaded_file original_image exif iptc gps
                     ocr_text lang_code)) ;;
  json_bytes <- utf8_encode doc ;;
  Return (json_bytes, export_file_name uploaded_file).

End Program.

(** *** Vocabulary of the statements *)

Section Vocabulary.

Context {rt : Runtime}.

(** The float [_rational_to_float] returns for [v]. *)
Definition component (v : value) : float :=
  match _rational_to_float v with
  | Return x => x
  | Raise _ => f0
  end.

(** [deg + min/60 + sec/3600] in float arithmetic. *)
Definition degrees (deg min sec : float) : float :=
  fadd (fadd deg (fdiv min f60)) (fdiv sec f3600).

(** The unsigned decimal degrees of a triple of components, rounded. *)
Definition magnitude (a b c : value) : float :=
  round_ndigits 7 (degrees (component a) (component b) (component c)).

Definition signed (flip : bool) (x : float) : float :=
  if flip then fneg x else x.

(** The text of a reference entry: the default when the entry is absent,
    the string, or the decoded bytes; [None] for any other value. *)
Definition ref_text (default : string) (entry : option value) : option str :=
  match entry with
  | None => Some (lit default)
  | Some (VStr s) => Some s
  | Some (VBytes b) => Some (decode_ignore b)
  | Some _ => None
  end.

(** A sequence of exactly three components. *)
Definition is_triple (v a b c : value) : Prop :=
  v = VTuple [a; b; c] \/ v = VList [a; b; c].

End Vocabulary.

(** A valid, non-negative degree, minute or second value: an EXIF rational
    [(n, d)] with [0 <= n] and [0 < d], a non-negative integer, or a
    non-negative float. *)
Inductive nonneg_rational : value -> Prop :=
| nonneg_pair n d : (0 <= n)%Z -> (0 < d)%Z -> nonneg_rational (VTuple [VInt n; VInt d])
| nonneg_int n : (0 <= n)%Z -> nonneg_rational (VInt n)
| nonneg_float x : sign_is false x = true -> nonneg_rational (VFloat x).

(** The fields of the exported document, in order. *)
Definition summary_keys (with_gps : bool) : list key :=
  map (fun s => KStr (lit s))
    (List.app ["file_name"; "format"; "size"; "mode"; "exif"; "iptc"]
       (List.app (if with_gps then ["gps"] else []) ["ocr_text"; "ocr_language"]))%string.

(** *** Sample inputs *)

(** A runtime to evaluate examples in.  The examples convert no text to a
    float, hold no letter outside ASCII and print no float, so they do not
    depend on how the fields are filled. *)
Definition sample_runtime : Runtime := {|
  float_of_str := fun _ => None;
  float_of_bytes := fun _ => None;
  upper_nonascii := fun c => [c];
  float_repr := fun _ => lit "0.0";
  value_str := fun _ => lit "None"
|}.

(** Libraries with every capability present; the tag table knows the
    tags the examples use. *)
Definition sample_libraries : Libraries := {|
  TAGS := fun n =>
    if Z.eqb n 34853 then Some (lit "GPSInfo")
    else if Z.eqb n 36864 then Some (lit "ExifVersion")
    else if Z.eqb n 272 then Some (lit "Model")
    else None;
  external_ocr_available := true;
  language_detection_available := true;
  iptc_available := true;
  IPTCInfo := fun _ =>
    Return {| iptc_keys := []; iptc_iter_error := None;
              iptc_getitem := fun _ => Return VNone |};
  image_to_string := fun _ => Return (lit "hello");
  detect := fun _ => Return (lit "en")
|}.

Definition gps_key : key := KStr (lit "GPSInfo").

(** [GPSLatitude=(40,26,46.302)], [GPSLatitudeRef="N"],
    [GPSLongitude=(79,56,55.163)], [GPSLongitudeRef="W"]. *)
Definition pittsburgh_gps : dict :=
  [ (KInt 1, VStr (lit "N"));
    (KInt 2, VTuple [VInt 40; VInt 26; VFloat (decimal false 46302 3)]);
    (KInt 3, VStr (lit "W"));
    (KInt 4, VTuple [VInt 79; VInt 56; VFloat (decimal false 55163 3)]) ].

Definition pittsburgh_exif : dict := [ (gps_key, VDict pittsburgh_gps) ].


(** A GPS block whose offset Pillow could not follow: the entry holds the
    integer offset instead of a dictionary. *)
Definition offset_exif : dict := [ (gps_key, VInt 5) ].

(** A GPS entry that is a tuple of integers. *)
Definition tuple_exif : dict := [ (gps_key, VTuple [VInt 2; VInt 4]) ].

(** A latitude of 100 degrees and a longitude of 200 degrees. *)
Definition out_of_range_exif : dict :=
  [ (gps_key,
     VDict [ (KInt 2, VTuple [VInt 100; VInt 0; VInt 0]);
             (KInt 4, VTuple [VInt 200; VInt 0; VInt 0]) ]) ].

(** The first example with an integer where the latitude reference
    should be. *)
Definition numeric_ref_exif : dict :=
  [ (gps_key, VDict (dict_set pittsburgh_gps (KInt 1) (VInt 5))) ].

(** The first example with references the resolver does not know: "X" for
    the latitude, the empty string for the longitude. *)
Definition unknown_ref_exif : dict :=
  [ (gps_key,
     VDict (dict_set (dict_set pittsburgh_gps (KInt 1) (VStr (lit "X")))
              (KInt 3) (VStr []))) ].

(** The first example without a latitude reference. *)
Definition no_ref_exif : dict :=
  [ (gps_key, VDict (tl pittsburgh_gps)) ].

Definition jpeg (getexif : option (result (option dict))) : Image := {|
  _getexif := getexif;
  format := VStr (lit "JPEG");
  width := 640;
  height := 480;
  mode := VStr (lit "RGB")
|}.

(** An image whose EXIF block makes [_getexif()] raise. *)
Definition corrupt_image : Image := jpeg (Some (Raise (LibraryError 0))).

(** An image whose EXIF block holds [ExifVersion = b"0231"], as Pillow
    returns that tag. *)
Definition exif_version_image : Image :=
  jpeg (Some (Return (Some [ (KInt 36864, VBytes [Byte.x30; Byte.x32; Byte.x33; Byte.x31]) ]))).

Definition photo_upload : UploadedFile := {|
  name := lit "photo.jpg";
  read := []
|}.

(** Libraries whose IPTC parser returns two keys, the lookup of the second
    of which raises. *)
Definition broken_iptc_libraries : Libraries := {|
  TAGS := fun _ => None;
  external_ocr_available := false;
  language_detection_available := false;
  iptc_available := true;
  IPTCInfo := fun _ =>
    Return {| iptc_keys := [KInt 5; KInt 25]; iptc_iter_error := None;
              iptc_getitem := fun k =>
                if key_eqb k (KInt 25) then Raise (LibraryError 1)
                else Return (VBytes [Byte.x48; Byte.x69]) |};
  image_to_string := fun _ => Raise (LibraryError 2);
  detect := fun _ => Raise (LibraryError 3)
|}.

(** A sub-mapping with a latitude and no longitude. *)
Definition latitude_only_exif : dict :=
  [ (gps_key, VDict [ (KInt 2, VTuple [VInt 40; VInt 26; VInt 46]) ]) ].

(** An image without EXIF data, and the document [main] exports for it
    with both settings off. *)
Definition plain_image : Image := jpeg None.

Definition plain_document : bytes :=
  Eval vm_compute in
    match main (rt := sample_runtime) (libs := sample_libraries)
            photo_upload plain_image plain_image false false with
    | Return (data, _) => data
    | Raise _ => []
    end.

(** *** Vocabulary of the further statements *)

(** What [extract_iptc] stores for a value it looked up: a [bytes] is
    decoded, anything else is stored as it is. *)
Definition stored_value (v : value) : value :=
  match v with
  | VBytes b => VStr (decode_ignore b)
  | _ => v
  end.

(** What the loop of [extract_iptc] stores under [str(key)]. *)
Definition iptc_stored (info : IPTCInfo_object) (k : key) : value :=
  match iptc_getitem info k with
  | Return v => stored_value v
  | Raise _ => VNone
  end.



Section FurtherVocabulary.

Context {rt : Runtime}.

(** A component that [_rational_to_float] turns into 0.0: its conversion
    raises, or it is a pair with a falsy denominator. *)
Definition malformed (v : value) : Prop :=
  (exists e, rational_to_float_try v = Raise e)
  \/ (exists n d, v = VTuple [n; d] /\ truthy d = false).

(** Whether a reference entry reads as [letter]: the default stands in
    for an absent entry, a [bytes] is decoded, and the text is compared in
    upper case; an entry that is no text does not read as any letter. *)
Definition reads_as (default letter : string) (entry : option value) : bool :=
  match ref_text default entry with
  | Some text => str_eqb (upper text) (lit letter)
  | None => false
  end.

End FurtherVocabulary.

(** *** Further sample inputs *)

(** A latitude given as a string of three characters and a longitude
    given as a dictionary with the keys 0, 1 and 2. *)
Definition odd_shapes_exif : dict :=
  [ (gps_key,
     VDict [ (KInt 2, VStr (lit "abc"));
             (KInt 4, VDict [ (KInt 0, VInt 79); (KInt 1, VInt 56);
                              (KInt 2, VFloat (decimal false 55163 3)) ]) ]) ].

(** Components that cannot be converted: [None], a triple, a rational
    with denominator 0. *)
Definition malformed_exif : dict :=
  [ (gps_key,
     VDict [ (KInt 1, VStr (lit "S"));
             (KInt 2, VTuple [VNone; VTuple [VInt 1; VInt 2; VInt 3];
                              VTuple [VInt 5; VInt 0]]);
             (KInt 4, VTuple [VNone; VNone; VNone]) ]) ].

(** The example with the latitude reference "S". *)
Definition southern_exif : dict :=
  [ (gps_key, VDict (dict_set pittsburgh_gps (KInt 1) (VStr (lit "S")))) ].

(** An image whose raw EXIF holds a camera model, the GPS block of the
    example under the GPS tag id, and a tag the table does not know. *)
Definition gps_image : Image :=
  jpeg (Some (Return (Some [ (KInt 272, VStr (lit "X100"));
                             (KInt 34853, VDict pittsburgh_gps);
                             (KInt 59932, VInt 1) ]))).

(** Libraries whose tag table is empty. *)
Definition untabled_libraries : Libraries := {|
  TAGS := fun _ => None;
  external_ocr_available := true;
  language_detection_available := true;
  iptc_available := true;
  IPTCInfo := IPTCInfo (Libraries := sample_libraries);
  image_to_string := image_to_string (Libraries := sample_libraries);
  detect := detect (Libraries := sample_libraries)
|}.

(** Libraries whose IPTC parser returns a caption as bytes under the key
    120 and a list of keywords, each a [bytes], under the key 25. *)
Definition caption_libraries : Libraries := {|
  TAGS := TAGS (Libraries := sample_libraries);
  external_ocr_available := true;
  language_detection_available := true;
  iptc_available := true;
  IPTCInfo := fun _ =>
    Return {| iptc_keys := [KInt 120; KInt 25]; iptc_iter_error := None;
              iptc_getitem := fun k =>
                if key_eqb k (KInt 120) then Return (VBytes [Byte.x48; Byte.x69])
                else Return (VList [VBytes [Byte.x61]; VBytes [Byte.x62]]) |};
  image_to_string := image_to_string (Libraries := sample_libraries);
  detect := detect (Libraries := sample_libraries)
|}.

(** The document [main] exports for the image without EXIF data with
    both settings on. *)
Definition hello_document : bytes :=
  Eval vm_compute in
    match main (rt := sample_runtime) (libs := sample_libraries)
            photo_upload plain_image plain_image true true with
    | Return (data, _) => data
    | Raise _ => []
    end.

End App.

(** * Properties *)

Module Float64Facts.
Import Float64.
Open Scope Z_scope.

Lemma shr_1_nonneg mrs : 0 <= shr_m mrs -> 0 <= shr_m (shr_1 mrs).
Proof.
  destruct mrs as [m r s]; simpl.
  destruct m as [|p|p]; simpl; try lia.
  - destruct p; simpl; lia.
Qed.

Lemma iter_shr_1_nonneg n : forall mrs,
  0 <= shr_m mrs -> 0 <= shr_m (iter_pos shr_1 n mrs).
Proof.
  induction n as [n IH|n IH|]; intros mrs H; simpl.
  - apply IH, IH, shr_1_nonneg, H.
  - apply IH, IH, H.
  - apply shr_1_nonneg, H.
Qed.

Lemma shr_nonneg mrs e n : 0 <= shr_m mrs -> 0 <= shr_m (fst (shr mrs e n)).
Proof.
  intros H. destruct n; simpl; trivial. now apply iter_shr_1_nonneg.
Qed.

Lemma shr_fexp_nonneg m e l :
  0 <= m -> 0 <= shr_m (fst (shr_fexp prec emax m e l)).
Proof.
  intros H. unfold shr_fexp. apply shr_nonneg.
  destruct l as [|[]]; simpl; exact H.
Qed.

Lemma round_nearest_even_nonneg m l : 0 <= m -> 0 <= round_nearest_even m l.
Proof.
  intros H. destruct l as [|[]]; simpl; try lia.
  destruct (Z.even m); lia.
Qed.

(** Rounding keeps the sign it is given. *)
Lemma binary_round_aux_sign s mx ex lx :
  0 <= mx -> sign_is s (binary_round_aux prec emax s mx ex lx) = true.
Proof.
  intros H. unfold binary_round_aux.
  pose proof (shr_fexp_nonneg ex lx H) as H1.
  destruct (shr_fexp prec emax mx ex lx) as [mrs' e'].
  simpl fst in H1.
  pose proof (shr_fexp_nonneg e' loc_Exact
                (round_nearest_even_nonneg (loc_of_shr_record mrs') H1)) as H2.
  destruct (shr_fexp prec emax _ e' loc_Exact) as [mrs'' e''].
  simpl fst in H2.
  destruct (shr_m mrs'') as [|m|m]; simpl.
  - reflexivity.
  - destruct (e'' <=? _); simpl; apply Bool.eqb_reflx.
  - lia.
Qed.

Lemma binary_round_sign s m e : sign_is s (binary_round prec emax s m e) = true.
Proof.
  unfold binary_round.
  destruct (shl_align m e _) as [mz ez].
  apply binary_round_aux_sign. lia.
Qed.

Lemma of_Z_sign n : 0 <= n -> sign_is false (of_Z n) = true.
Proof.
  intros H. unfold of_Z, binary_normalize.
  destruct n as [|p|p]; try lia; [reflexivity|apply binary_round_sign].
Qed.

Lemma of_ratio_sign s p d : sign_is s (of_ratio s p d) = true.
Proof.
  unfold of_ratio, SFdiv_core_binary.
  set (e' := Z.min _ _). set (m' := match 0 - 0 - e' with Z0 => _ | _ => _ end).
  assert (Hm : 0 <= m').
  { subst m'. destruct (0 - 0 - e'); try lia. apply Z.shiftl_nonneg. lia. }
  pose proof (Z.div_pos m' (Zpos d) Hm ltac:(lia)) as Hq.
  unfold Z.div in Hq. destruct (Z.div_eucl m' (Zpos d)) as [q r].
  apply binary_round_aux_sign. exact Hq.
Qed.

Lemma fdiv_sign x m e :
  sign_is false x = true -> sign_is false (fdiv x (S754_finite false m e)) = true.
Proof.
  destruct x as [sx|sx| |sx mx ex]; simpl; intros H; try discriminate.
  - reflexivity.
  - destruct sx; [discriminate|reflexivity].
  - destruct sx; [discriminate|]. unfold fdiv, SFdiv, SFdiv_core_binary.
    set (e' := Z.min _ _). set (m' := match ex - e - e' with Z0 => _ | _ => _ end).
    assert (Hm : 0 <= m').
    { subst m'. destruct (ex - e - e'); try lia. apply Z.shiftl_nonneg. lia. }
    pose proof (Z.div_pos m' (Zpos m) Hm ltac:(lia)) as Hq.
    unfold Z.div in Hq. destruct (Z.div_eucl m' (Zpos m)) as [q r].
    apply binary_round_aux_sign. exact Hq.
Qed.

Lemma fadd_sign x y :
  sign_is false x = true -> sign_is false y = true -> sign_is false (fadd x y) = true.
Proof.
  destruct x as [sx|sx| |sx mx ex], y as [sy|sy| |sy my ey]; simpl;
    intros Hx Hy; try discriminate; try assumption; try reflexivity.
  - destruct sx, sy; reflexivity.
  - destruct sx, sy; simpl in *; try discriminate; reflexivity.
  - destruct sx, sy; simpl in *; try discriminate.
    apply binary_round_sign.
Qed.

Lemma fneg_sign s x : sign_is s x = true -> sign_is (negb s) (fneg x) = true.
Proof.
  destruct x as [sx|sx| |sx mx ex]; simpl; trivial; destruct s, sx; trivial.
Qed.

Lemma round_ndigits_sign s nd x :
  sign_is s x = true -> sign_is s (round_ndigits nd x) = true.
Proof.
  destruct x as [sx|sx| |sx mx ex]; simpl; trivial.
  intros H. apply Bool.eqb_prop in H. subst sx.
  destruct (scaled_half_even nd mx ex); try reflexivity. apply of_ratio_sign.
Qed.

Lemma binary_round_aux_opp s mx ex lx :
  binary_round_aux prec emax (negb s) mx ex lx
  = SFopp (binary_round_aux prec emax s mx ex lx).
Proof.
  unfold binary_round_aux.
  destruct (shr_fexp prec emax mx ex lx) as [mrs' e'].
  destruct (shr_fexp prec emax _ e' loc_Exact) as [mrs'' e''].
  destruct (shr_m mrs''); try reflexivity.
  destruct (_ <=? _); reflexivity.
Qed.

Lemma of_ratio_opp s p d : of_ratio (negb s) p d = fneg (of_ratio s p d).
Proof.
  unfold of_ratio. destruct (SFdiv_core_binary _ _ _ _ _ _) as [[q e] l].
  apply binary_round_aux_opp.
Qed.

(** Rounding commutes with negation. *)
Lemma round_ndigits_opp nd x :
  round_ndigits nd (fneg x) = fneg (round_ndigits nd x).
Proof.
  destruct x as [s|s| |s m e]; try reflexivity. simpl.
  destruct (scaled_half_even nd m e); try reflexivity. apply of_ratio_opp.
Qed.

Lemma round_ndigits_rounded nd x : is_rounded nd (round_ndigits nd x).
Proof.
  destruct x as [s|s| |s m e]; simpl.
  - right. exists s, 0. split; [lia|reflexivity].
  - now left.
  - now left.
  - right. exists s.
    assert (H : 0 <= scaled_half_even nd m e \/ scaled_half_even nd m e < 0) by lia.
    destruct H as [H|H].
    + exists (scaled_half_even nd m e). split; [exact H|].
      unfold decimal. now destruct (scaled_half_even nd m e).
    + exists 0. split; [lia|]. now destruct (scaled_half_even nd m e).
Qed.

Lemma sign_is_nonneg x : sign_is false x = true -> fleb pos_zero x = true.
Proof. destruct x as [sx|sx| |sx mx ex]; simpl; trivial; destruct sx; trivial; discriminate. Qed.

Lemma sign_is_nonpos x : sign_is true x = true -> fleb x pos_zero = true.
Proof. destruct x as [sx|sx| |sx mx ex]; simpl; trivial; destruct sx; trivial; discriminate. Qed.

End Float64Facts.

Module AppFacts.
Import Float64 Py App Float64Facts.
Local Open Scope py_scope.

Section Resolver.

Context {rt : Runtime}.

Lemma rational_to_float_returns r : _rational_to_float r = Return (component r).
Proof.
  unfold component, _rational_to_float, try_except.
  destruct (rational_to_float_try r); reflexivity.
Qed.

Lemma decimal_degrees_returns d m s :
  decimal_degrees d m s = Return (degrees d m s).
Proof. reflexivity. Qed.

Lemma getitem_triple v a b c :
  is_triple v a b c ->
  getitem v 0 = Return a /\ getitem v 1 = Return b /\ getitem v 2 = Return c
  /\ truthy v = true.
Proof. intros [-> | ->]; repeat split. Qed.

Lemma upper_ref_text default entry text :
  ref_text default entry = Some text ->
  method_upper
    (decode_if_bytes (match entry with Some x => x | None => VStr (lit default) end))
  = Return (VStr (upper text)).
Proof.
  destruct entry as [[]|]; simpl; intros E; inversion E; reflexivity.
Qed.

Lemma upper_ref_other default entry :
  ref_text default entry = None ->
  method_upper
    (decode_if_bytes (match entry with Some x => x | None => VStr (lit default) end))
  = Raise AttributeError.
Proof.
  destruct entry as [[]|]; simpl; intros E; inversion E; reflexivity.
Qed.

Lemma dict_mem_get d k v : dict_get d k = Some v -> dict_mem d k = true.
Proof. unfold dict_mem. now intros ->. Qed.

Lemma dict_get_nonempty d k v : dict_get d k = Some v -> truthy (VDict d) = true.
Proof. destruct d; [discriminate|reflexivity]. Qed.

(** The resolver on a sub-mapping that holds both triples, as a function
    of the two reference entries. *)
Lemma resolver_on_triples exif gps lat_vals lon_vals a b c a' b' c' :
  dict_get exif gps_key = Some (VDict gps) ->
  dict_get gps (KInt 2) = Some lat_vals -> is_triple lat_vals a b c ->
  dict_get gps (KInt 4) = Some lon_vals -> is_triple lon_vals a' b' c' ->
  extract_gps_from_exif exif =
    try (u <- method_upper (decode_if_bytes
                (match dict_get gps (KInt 1) with Some x => x | None => VStr (lit "N") end)) ;;
         w <- method_upper (decode_if_bytes
                (match dict_get gps (KInt 3) with Some x => x | None => VStr (lit "E") end)) ;;
         Return (Some
           (round_ndigits 7 (signed (eq_str u (lit "S"))
                               (degrees (component a) (component b) (component c))),
            round_ndigits 7 (signed (eq_str w (lit "W"))
                               (degrees (component a') (component b') (component c'))))))
    except Return None.
Proof.
  intros Hexif Hlat Tlat Hlon Tlon.
  destruct (getitem_triple Tlat) as (A0 & A1 & A2 & At).
  destruct (getitem_triple Tlon) as (B0 & B1 & B2 & Bt).
  unfold extract_gps_from_exif. fold gps_key. rewrite Hexif.
  rewrite (dict_get_nonempty _ _ Hlat). simpl negb. cbv iota.
  unfold contains_int. rewrite (dict_mem_get _ _ Hlat), (dict_mem_get _ _ Hlon).
  cbn [bind]. unfold method_get. rewrite Hlat, Hlon. cbn [bind].
  rewrite At, Bt. simpl orb. cbv iota.
  unfold gps_try. rewrite A0, A1, A2, B0, B1, B2. cbn [bind].
  rewrite !rational_to_float_returns. cbn [bind].
  rewrite !decimal_degrees_returns. cbn [bind].
  destruct (method_upper (decode_if_bytes match dict_get gps (KInt 1) with _ => _ end)) as [u|e];
    [|reflexivity].
  cbn [bind].
  destruct (method_upper _) as [w|e]; reflexivity.
Qed.


Lemma component_nonneg v : nonneg_rational v -> sign_is false (component v) = true.
Proof.
  intros [n d Hn Hd | n Hn | x Hx]; unfold component, _rational_to_float.
  - cbn -[of_Z fdiv].
    assert (Ht : negb (d =? 0)%Z = true) by (apply negb_true_iff, Z.eqb_neq; lia).
    rewrite Ht. unfold float_of_int.
    pose proof (of_Z_sign Hn) as Sn.
    pose proof (@of_Z_sign d ltac:(lia)) as Sd.
    destruct (of_Z n) as [sn|sn| |sn mn en] eqn:En; try discriminate; try reflexivity;
      cbn [bind try_except];
      destruct (of_Z d) as [sd|sd| |sd md ed] eqn:Ed; try discriminate; try reflexivity;
      cbn [bind try_except float_truediv is_zero]; try reflexivity;
      (destruct sd; [discriminate|]; apply fdiv_sign; exact Sn).
  - cbn -[of_Z]. unfold float_of_int.
    pose proof (of_Z_sign Hn) as Sn.
    destruct (of_Z n); try discriminate; try reflexivity; exact Sn.
  - exact Hx.
Qed.

Lemma degrees_nonneg d m s :
  sign_is false d = true -> sign_is false m = true -> sign_is false s = true ->
  sign_is false (degrees d m s) = true.
Proof.
  intros Hd Hm Hs. unfold degrees, f60, f3600.
  apply fadd_sign; [apply fadd_sign|]; trivial; now apply fdiv_sign.
Qed.

Lemma magnitude_nonneg a b c :
  nonneg_rational a -> nonneg_rational b -> nonneg_rational c ->
  sign_is false (magnitude a b c) = true.
Proof.
  intros Ha Hb Hc. apply round_ndigits_sign, degrees_nonneg; now apply component_nonneg.
Qed.

(** The resolver on text references. *)
Lemma resolver_on_text exif gps lat_vals lon_vals a b c a' b' c' lat_ref lon_ref :
  dict_get exif gps_key = Some (VDict gps) ->
  dict_get gps (KInt 2) = Some lat_vals -> is_triple lat_vals a b c ->
  dict_get gps (KInt 4) = Some lon_vals -> is_triple lon_vals a' b' c' ->
  ref_text "N" (dict_get gps (KInt 1)) = Some lat_ref ->
  ref_text "E" (dict_get gps (KInt 3)) = Some lon_ref ->
  extract_gps_from_exif exif =
    Return (Some
      (round_ndigits 7 (signed (str_eqb (upper lat_ref) (lit "S"))
                          (degrees (component a) (component b) (component c))),
       round_ndigits 7 (signed (str_eqb (upper lon_ref) (lit "W"))
                          (degrees (component a') (component b') (component c'))))).
Proof.
  intros Hexif Hlat Tlat Hlon Tlon R1 R3.
  rewrite (resolver_on_triples _ Hexif Hlat Tlat Hlon Tlon).
  rewrite (upper_ref_text _ _ R1), (upper_ref_text _ _ R3). reflexivity.
Qed.

Lemma resolver_on_other exif gps lat_vals lon_vals a b c a' b' c' :
  dict_get exif gps_key = Some (VDict gps) ->
  dict_get gps (KInt 2) = Some lat_vals -> is_triple lat_vals a b c ->
  dict_get gps (KInt 4) = Some lon_vals -> is_triple lon_vals a' b' c' ->
  ref_text "N" (dict_get gps (KInt 1)) = None \/
  ref_text "E" (dict_get gps (KInt 3)) = None ->
  extract_gps_from_exif exif = Return None.
Proof.
  intros Hexif Hlat Tlat Hlon Tlon R.
  rewrite (resolver_on_triples _ Hexif Hlat Tlat Hlon Tlon).
  destruct R as [R|R].
  - rewrite (upper_ref_other _ _ R). reflexivity.
  - rewrite (upper_ref_other _ _ R).
    destruct (method_upper _); reflexivity.
Qed.

Lemma signed_round flip x :
  round_ndigits 7 (signed flip x) = signed flip (round_ndigits 7 x).
Proof. destruct flip; [apply round_ndigits_opp|reflexivity]. Qed.


Lemma bind_returns {A B} (c : result A) (k : A -> result B) b :
  bind c k = Return b -> exists a, c = Return a /\ k a = Return b.
Proof. destruct c as [a|e]; simpl; [now exists a|discriminate]. Qed.

(** Peels the binds off a hypothesis [H : (x <- c ;; k) = Return b]. *)
Ltac bind_inv H :=
  repeat (apply bind_returns in H; destruct H as (? & ? & H)).

Lemma gps_try_rounded lat_ref lon_ref lat_vals lon_vals lat lon :
  gps_try lat_ref lon_ref lat_vals lon_vals = Return (Some (lat, lon)) ->
  is_rounded 7 lat /\ is_rounded 7 lon.
Proof.
  unfold gps_try. intros H. bind_inv H.
  inversion H; subst. split; apply round_ndigits_rounded.
Qed.


(** C2: a GPS entry that is not a dictionary makes the resolver raise.
    The integer that stands for a GPS block Pillow could not read raises
    [TypeError] at [2 in gps_ifd], and a tuple that holds 2 and 4 raises
    [AttributeError] at [gps_ifd.get]: both are evaluated before the
    [try]. *)
Theorem resolver_raises_on_offset :
  extract_gps_from_exif offset_exif = Raise TypeError
  /\ extract_gps_from_exif tuple_exif = Raise AttributeError.
Proof. split; reflexivity. Qed.

(** The resolver on a GPS entry that is absent, falsy or a dictionary:
    it returns, and returns absent when the latitude or the longitude
    entry is missing. *)
Theorem resolver_returns_on_mappings exif :
  (forall gps, dict_get exif gps_key = Some (VDict gps) ->
     (exists r, extract_gps_from_exif exif = Return r)
     /\ (dict_mem gps (KInt 2) = false \/ dict_mem gps (KInt 4) = false ->
         extract_gps_from_exif exif = Return None))
  /\ (forall v, dict_get exif gps_key = Some v -> truthy v = false ->
        extract_gps_from_exif exif = Return None)
  /\ (dict_get exif gps_key = None -> extract_gps_from_exif exif = Return None).
Proof.
  unfold extract_gps_from_exif; fold gps_key. repeat split.
  - rewrite H. destruct (truthy (VDict gps)); [|now eexists]. cbn [negb contains_int bind].
    destruct (dict_mem gps (KInt 2)); cbn [bind]; [|now eexists].
    destruct (dict_mem gps (KInt 4)); cbn [bind method_get]; [|now eexists].
    destruct (_ || _); [now eexists|].
    destruct (gps_try _ _ _ _); now eexists.
  - rewrite H. destruct (truthy (VDict gps)); [|reflexivity]. cbn [negb contains_int bind].
    intros [-> | E]; [reflexivity|].
    destruct (dict_mem gps (KInt 2)); cbn [bind]; [|reflexivity]. now rewrite E.
  - intros v -> ->. reflexivity.
  - intros ->. reflexivity.
Qed.

(** C3 (amended): whenever the resolver returns a pair, both coordinates
    are floats rounded to 7 decimal places; no range is enforced. *)
Theorem resolver_output_rounded exif lat lon :
  extract_gps_from_exif exif = Return (Some (lat, lon)) ->
  is_rounded 7 lat /\ is_rounded 7 lon.
Proof.
  unfold extract_gps_from_exif. intros H.
  destruct (negb (truthy _)); [discriminate|].
  apply bind_returns in H. destruct H as (has_lat & _ & H).
  apply bind_returns in H. destruct H as (has_both & _ & H).
  destruct has_both; [|discriminate].
  apply bind_returns in H. destruct H as (lat_ref & _ & H).
  apply bind_returns in H. destruct H as (lon_ref & _ & H).
  apply bind_returns in H. destruct H as (lat_vals & _ & H).
  apply bind_returns in H. destruct H as (lon_vals & _ & H).
  destruct (_ || _); [discriminate|].
  unfold try_except in H.
  destruct (gps_try lat_ref lon_ref lat_vals lon_vals) as [r|e] eqn:E; [|discriminate].
  inversion H; subst. now apply gps_try_rounded in E.
Qed.

(** C4: for triples of valid non-negative components the output of each
    axis is its non-negative magnitude under "N" and "E" (also when the
    reference is absent) and the negated, non-positive magnitude under "S"
    and "W", and "s" and "w" act as "S" and "W" do.  The references may be
    strings or bytes. *)
Theorem gps_reference_sign exif gps lat_vals lon_vals a b c a' b' c' lat_ref lon_ref :
  dict_get exif gps_key = Some (VDict gps) ->
  dict_get gps (KInt 2) = Some lat_vals -> is_triple lat_vals a b c ->
  dict_get gps (KInt 4) = Some lon_vals -> is_triple lon_vals a' b' c' ->
  Forall nonneg_rational [a; b; c; a'; b'; c'] ->
  ref_text "N" (dict_get gps (KInt 1)) = Some lat_ref ->
  ref_text "E" (dict_get gps (KInt 3)) = Some lon_ref ->
  exists lat lon,
    extract_gps_from_exif exif = Return (Some (lat, lon))
    /\ fleb pos_zero (magnitude a b c) = true
    /\ fleb pos_zero (magnitude a' b' c') = true
    /\ (lat_ref = lit "N" -> lat = magnitude a b c)
    /\ (lon_ref = lit "E" -> lon = magnitude a' b' c')
    /\ (lat_ref = lit "S" \/ lat_ref = lit "s" ->
        lat = fneg (magnitude a b c) /\ fleb lat pos_zero = true)
    /\ (lon_ref = lit "W" \/ lon_ref = lit "w" ->
        lon = fneg (magnitude a' b' c') /\ fleb lon pos_zero = true).
Proof.
  intros Hexif Hlat Tlat Hlon Tlon Hnn R1 R3.
  repeat match goal with
         | H : Forall _ (_ :: _) |- _ => inversion H; subst; clear H
         end.
  assert (Mlat : sign_is false (magnitude a b c) = true) by now apply magnitude_nonneg.
  assert (Mlon : sign_is false (magnitude a' b' c') = true) by now apply magnitude_nonneg.
  eexists _, _. split.
  { eapply resolver_on_text; eassumption. }
  rewrite !signed_round. fold (magnitude a b c) (magnitude a' b' c').
  repeat apply conj.
  - now apply sign_is_nonneg.
  - now apply sign_is_nonneg.
  - now intros ->.
  - now intros ->.
  - intros [-> | ->]; (split; [reflexivity|]);
      apply sign_is_nonpos, (fneg_sign false), Mlat.
  - intros [-> | ->]; (split; [reflexivity|]);
      apply sign_is_nonpos, (fneg_sign false), Mlon.
Qed.

Lemma upper_ascii_nil s :
  Forall (fun ch => (ch < 128)%N) s -> upper s = [] -> s = [].
Proof.
  destruct s as [|ch s]; trivial. intros H. inversion H as [|? ? Hc _]; subst.
  unfold upper. simpl flat_map. unfold upper_char at 1.
  destruct (_ && _); [discriminate|].
  apply N.ltb_lt in Hc. rewrite Hc. discriminate.
Qed.

(** Among ASCII strings only a capital letter and its small form have a
    given capital letter as their upper-case form. *)
Lemma upper_ascii_letter s t :
  Forall (fun ch => (ch < 128)%N) s -> (65 <= t)%N -> (t <= 90)%N ->
  upper s = [t] <-> s = [t] \/ s = [(t + 32)%N].
Proof.
  intros Hs Ht1 Ht2. split.
  - destruct s as [|ch s]; [discriminate|].
    inversion Hs as [|? ? Hc Hs']; subst.
    unfold upper. simpl flat_map. fold (upper s). unfold upper_char.
    destruct ((97 <=? ch)%N && (ch <=? 122)%N) eqn:E.
    + simpl. intros H. inversion H as [[H1 H2]].
      rewrite (upper_ascii_nil Hs' H2). right. f_equal.
      apply andb_true_iff in E. destruct E as [E1 E2].
      apply N.leb_le in E1, E2. lia.
    + apply N.ltb_lt in Hc. rewrite Hc. simpl. intros H. inversion H as [[H1 H2]].
      rewrite (upper_ascii_nil Hs' H2). now left.
  - intros [-> | ->]; unfold upper; simpl flat_map; unfold upper_char.
    + assert (E : (97 <=? t)%N = false) by (apply N.leb_gt; lia).
      rewrite E. simpl.
      assert (E' : (t <? 128)%N = true) by (apply N.ltb_lt; lia).
      now rewrite E'.
    + assert (E1 : (97 <=? t + 32)%N = true) by (apply N.leb_le; lia).
      assert (E2 : (t + 32 <=? 122)%N = true) by (apply N.leb_le; lia).
      rewrite E1, E2. simpl. f_equal. lia.
Qed.

Lemma str_eqb_eq a : forall b, str_eqb a b = true -> a = b.
Proof.
  induction a as [|x a IH]; intros [|y b]; simpl; try discriminate; trivial.
  intros H. apply andb_true_iff in H. destruct H as [H1 H2].
  apply N.eqb_eq in H1. subst y. f_equal. now apply IH.
Qed.

Lemma str_eqb_refl a : str_eqb a a = true.
Proof. induction a as [|x a IH]; simpl; trivial. now rewrite N.eqb_refl. Qed.

Lemma str_eqb_neq a b : a <> b -> str_eqb a b = false.
Proof.
  intros N. destruct (str_eqb a b) eqn:E; trivial. now apply str_eqb_eq in E.
Qed.

(** C10 (amended): a reference that is a string, or bytes (decoded
    first), and whose upper-case form is not "S" (latitude) or "W"
    (longitude) leaves its axis as it is under "N" or "E", and the resolver
    still returns the pair; among ASCII strings the forms that flip are
    exactly "S", "s" and "W", "w".  A reference that is neither a string
    nor bytes makes the resolver return absent. *)
Theorem unrecognized_reference exif gps lat_vals lon_vals a b c a' b' c' :
  dict_get exif gps_key = Some (VDict gps) ->
  dict_get gps (KInt 2) = Some lat_vals -> is_triple lat_vals a b c ->
  dict_get gps (KInt 4) = Some lon_vals -> is_triple lon_vals a' b' c' ->
  (forall lat_ref lon_ref,
     ref_text "N" (dict_get gps (KInt 1)) = Some lat_ref ->
     ref_text "E" (dict_get gps (KInt 3)) = Some lon_ref ->
     exists lat lon,
       extract_gps_from_exif exif = Return (Some (lat, lon))
       /\ (upper lat_ref <> lit "S" -> lat = magnitude a b c)
       /\ (upper lon_ref <> lit "W" -> lon = magnitude a' b' c')
       /\ (Forall (fun ch => (ch < 128)%N) lat_ref ->
           lat_ref <> lit "S" -> lat_ref <> lit "s" -> lat = magnitude a b c)
       /\ (Forall (fun ch => (ch < 128)%N) lon_ref ->
           lon_ref <> lit "W" -> lon_ref <> lit "w" -> lon = magnitude a' b' c'))
  /\ (ref_text "N" (dict_get gps (KInt 1)) = None \/
      ref_text "E" (dict_get gps (KInt 3)) = None ->
      extract_gps_from_exif exif = Return None).
Proof.
  intros Hexif Hlat Tlat Hlon Tlon. split.
  - intros lat_ref lon_ref R1 R3. eexists _, _. split.
    { eapply resolver_on_text; eauto. }
    assert (L1 : upper lat_ref <> lit "S" ->
                 round_ndigits 7 (signed (str_eqb (upper lat_ref) (lit "S"))
                   (degrees (component a) (component b) (component c)))
                 = magnitude a b c).
    { intros N. now rewrite (str_eqb_neq N). }
    assert (L2 : upper lon_ref <> lit "W" ->
                 round_ndigits 7 (signed (str_eqb (upper lon_ref) (lit "W"))
                   (degrees (component a') (component b') (component c')))
                 = magnitude a' b' c').
    { intros N. now rewrite (str_eqb_neq N). }
    repeat apply conj; trivial.
    + intros A N1 N2. apply L1. intros U.
      apply (upper_ascii_letter (t := 83%N) A) in U; [|lia|lia].
      destruct U as [U|U]; [now apply N1|now apply N2].
    + intros A N1 N2. apply L2. intros U.
      apply (upper_ascii_letter (t := 87%N) A) in U; [|lia|lia].
      destruct U as [U|U]; [now apply N1|now apply N2].
  - eapply resolver_on_other; eauto.
Qed.

(** C5: [_rational_to_float] returns a float for every value; a pair with
    a truthy denominator gives the quotient of the two conversions, a
    pair with a falsy denominator gives 0.0, and whatever raises inside
    gives 0.0. *)
Theorem rational_to_float_total r :
  (exists x, _rational_to_float r = Return x)
  /\ (forall n d x y,
        r = VTuple [n; d] -> truthy d = true ->
        float_of n = Return x -> float_of d = Return y -> is_zero y = false ->
        _rational_to_float r = Return (fdiv x y))
  /\ (forall n d,
        r = VTuple [n; d] -> truthy d = false -> _rational_to_float r = Return f0)
  /\ (forall e, rational_to_float_try r = Raise e -> _rational_to_float r = Return f0).
Proof.
  repeat apply conj.
  - exists (component r). apply rational_to_float_returns.
  - intros n d x y -> T Fn Fd Z. unfold _rational_to_float. cbn -[float_of].
    rewrite T, Fn, Fd. cbn [bind]. unfold float_truediv. now rewrite Z.
  - intros n d -> T. unfold _rational_to_float. cbn -[float_of]. now rewrite T.
  - intros e E. unfold _rational_to_float. now rewrite E.
Qed.

End Resolver.

Section Extractors.

Context {rt : Runtime} {libs : Libraries}.

(** *** The metadata decoder *)

Lemma key_eqb_refl k : key_eqb k k = true.
Proof. destruct k; simpl; [apply Z.eqb_refl|apply str_eqb_refl]. Qed.

Lemma key_eqb_eq k k' : key_eqb k k' = true -> k = k'.
Proof.
  destruct k, k'; simpl; try discriminate; intros H.
  - apply Z.eqb_eq in H. now subst.
  - apply str_eqb_eq in H. now subst.
Qed.

Lemma dict_get_set_same d k v : dict_get (dict_set d k v) k = Some v.
Proof.
  induction d as [|[k' v'] d IH]; simpl.
  - now rewrite key_eqb_refl.
  - destruct (key_eqb k' k) eqn:E; simpl; now rewrite E.
Qed.

Lemma dict_get_set_other d k v k' :
  key_eqb k k' = false -> dict_get (dict_set d k v) k' = dict_get d k'.
Proof.
  intros N. induction d as [|[k0 v0] d IH]; simpl.
  - now rewrite N.
  - destruct (key_eqb k0 k) eqn:E; simpl.
    + apply key_eqb_eq in E. subst k0. now rewrite N.
    + now rewrite IH.
Qed.

Lemma decode_items_cons item raw acc :
  decode_items (item :: raw) acc
  = decode_items raw (dict_set acc (KStr (tag_name (fst item))) (snd item)).
Proof. reflexivity. Qed.

Lemma decode_items_app before after acc :
  decode_items (before ++ after) acc = decode_items after (decode_items before acc).
Proof. apply fold_left_app. Qed.

(** A later item under another name leaves an entry alone. *)
Lemma decode_items_other raw : forall acc name,
  (forall item, In item raw -> tag_name (fst item) <> name) ->
  dict_get (decode_items raw acc) (KStr name) = dict_get acc (KStr name).
Proof.
  induction raw as [|[tag_id v] raw IH]; intros acc name H; [reflexivity|].
  rewrite decode_items_cons.
  rewrite IH by (intros item Hi; apply H; now right).
  apply dict_get_set_other. simpl. apply str_eqb_neq.
  apply (H (tag_id, v)). now left.
Qed.

(** Every item leaves an entry under its name. *)
Lemma decode_items_mem raw : forall acc tag_id v,
  In (tag_id, v) raw ->
  dict_mem (decode_items raw acc) (KStr (tag_name tag_id)) = true.
Proof.
  assert (Keep : forall raw acc k, dict_mem acc k = true ->
                   dict_mem (decode_items raw acc) k = true).
  { clear. induction raw as [|[t v] raw IH]; intros acc k H; [exact H|].
    rewrite decode_items_cons. apply IH. simpl fst; simpl snd.
    unfold dict_mem in *.
    destruct (key_eqb (KStr (tag_name t)) k) eqn:E.
    - apply key_eqb_eq in E. subst k. now rewrite dict_get_set_same.
    - now rewrite dict_get_set_other. }
  induction raw as [|[t w] raw IH]; intros acc tag_id v Hin; [destruct Hin|].
  rewrite decode_items_cons. destruct Hin as [E|Hin].
  - inversion E; subst. apply Keep. unfold dict_mem. simpl fst.
    now rewrite dict_get_set_same.
  - now apply IH with (v := v).
Qed.

(** C6: an image whose [_getexif()] raises makes [decode_exif] raise the
    same exception: the call is not inside a [try]. *)
Theorem decode_exif_propagates :
  decode_exif corrupt_image = Raise (LibraryError 0)
  /\ (forall image e,
        _getexif image = Some (Raise e) -> decode_exif image = Raise e).
Proof.
  split; [reflexivity|].
  intros image e H. unfold decode_exif. now rewrite H.
Qed.

(** [decode_exif] on an image whose accessor is missing or returns: an
    empty mapping when there is no accessor or it yields nothing, and
    otherwise a mapping that holds every raw tag id under its name (the
    name of the table, or the id as a string), with the item's value when
    no later item has the same name. *)
Theorem decode_exif_names image :
  (_getexif image = None -> decode_exif image = Return [])
  /\ (_getexif image = Some (Return None) -> decode_exif image = Return [])
  /\ (_getexif image = Some (Return (Some [])) -> decode_exif image = Return [])
  /\ (forall raw,
        _getexif image = Some (Return (Some raw)) ->
        exists exif_data,
          decode_exif image = Return exif_data
          /\ (forall tag_id v, In (tag_id, v) raw ->
                dict_mem exif_data (KStr (tag_name tag_id)) = true)
          /\ (forall before tag_id v after,
                raw = before ++ (tag_id, v) :: after ->
                (forall item, In item after -> tag_name (fst item) <> tag_name tag_id) ->
                dict_get exif_data (KStr (tag_name tag_id)) = Some v)).
Proof.
  unfold decode_exif. repeat apply conj.
  - now intros ->.
  - now intros ->.
  - now intros ->.
  - intros raw ->. cbn [bind]. destruct raw as [|item raw].
    + exists []. repeat apply conj; trivial.
      * intros ? ? [].
      * intros before ? ? ? E. now destruct before.
    + exists (decode_items (item :: raw) []). repeat apply conj; trivial.
      * intros tag_id v Hin. now apply decode_items_mem with (v := v).
      * intros before tag_id v after -> H.
        rewrite decode_items_app, decode_items_cons.
        rewrite decode_items_other by exact H.
        apply dict_get_set_same.
Qed.

(** *** The caption extractor *)

Lemma iptc_step_raises info acc k e :
  iptc_getitem info k = Raise e -> iptc_step info acc k = Raise e.
Proof. unfold iptc_step. now intros ->. Qed.

Lemma iptc_step_returns info acc k v :
  iptc_getitem info k = Return v -> exists acc', iptc_step info acc k = Return acc'.
Proof. unfold iptc_step. intros ->. now eexists. Qed.

(** The loop raises as soon as one lookup does, or the iteration. *)
Lemma iptc_loop_raises info keys : forall acc,
  (exists e, iptc_iter_error info = Some e)
  \/ (exists k e, In k keys /\ iptc_getitem info k = Raise e) ->
  exists e, iptc_loop info keys acc = Raise e.
Proof.
  induction keys as [|k keys IH]; intros acc H; simpl.
  - destruct H as [[e E]|(k & e & [] & _)]. rewrite E. now exists e.
  - destruct (iptc_getitem info k) as [v|e] eqn:G.
    + destruct (iptc_step_returns info acc k G) as [acc' ->]. cbn [bind].
      apply IH. destruct H as [H|(k' & e & [<-|Hin] & G')]; [now left| |].
      * rewrite G in G'. discriminate.
      * right. now exists k', e.
    + rewrite (iptc_step_raises info acc k G). now exists e.
Qed.

Lemma extract_iptc_returns image_bytes :
  exists m, extract_iptc image_bytes = Return m.
Proof.
  unfold extract_iptc. destruct iptc_available; cbn [negb]; [|now eexists].
  destruct (IPTCInfo image_bytes) as [info|e]; cbn [bind try_except]; [|now eexists].
  destruct (iptc_loop _ _ _); now eexists.
Qed.

(** C7: [extract_iptc] always returns a mapping; the mapping is empty when
    the capability flag is false, whatever the bytes, and when the
    parser, the iteration over the keys or the lookup of a key raises. *)
Theorem extract_iptc_fallback image_bytes :
  (exists m, extract_iptc image_bytes = Return m)
  /\ (iptc_available = false -> extract_iptc image_bytes = Return [])
  /\ (forall e, IPTCInfo image_bytes = Raise e -> extract_iptc image_bytes = Return [])
  /\ (forall info,
        IPTCInfo image_bytes = Return info ->
        (exists e, iptc_iter_error info = Some e)
        \/ (exists k e, In k (iptc_keys info) /\ iptc_getitem info k = Raise e) ->
        extract_iptc image_bytes = Return []).
Proof.
  split; [apply extract_iptc_returns|].
  unfold extract_iptc. repeat apply conj.
  - now intros ->.
  - intros e E. rewrite E. now destruct iptc_available.
  - intros info E H. rewrite E. cbn [bind].
    destruct (iptc_loop_raises info (iptc_keys info) [] H) as [e ->].
    now destruct iptc_available.
Qed.

(** *** The language identifier *)

Lemma lstrip_spaces s : forallb is_space s = true -> lstrip s = [].
Proof.
  induction s as [|ch s IH]; simpl; trivial.
  intros H. apply andb_true_iff in H. destruct H as [H1 H2]. rewrite H1. now apply IH.
Qed.

Lemma strip_spaces s : forallb is_space s = true -> strip s = [].
Proof. intros H. unfold strip. now rewrite (lstrip_spaces s H). Qed.

Lemma detect_language_returns text :
  exists r, detect_language text = Return r.
Proof.
  unfold detect_language. destruct (_ || _); [now eexists|].
  destruct (detect text); now eexists.
Qed.

(** C8: [detect_language] always returns; it returns absent when the
    capability flag is false, when the text is empty after stripping (so
    for every text of white space only), and when the detector raises. *)
Theorem detect_language_fallback text :
  (exists r, detect_language text = Return r)
  /\ (language_detection_available = false -> detect_language text = Return None)
  /\ (strip text = [] -> detect_language text = Return None)
  /\ (forallb is_space text = true -> detect_language text = Return None)
  /\ (forall e, detect text = Raise e -> detect_language text = Return None).
Proof.
  unfold detect_language.
  assert (S : strip text = [] ->
              (if negb language_detection_available || negb (truthy (VStr (strip text)))
               then Return None
               else try (code <- detect text ;; Return (Some code)) except Return None)
              = Return None).
  { intros ->. simpl. now rewrite orb_true_r. }
  repeat apply conj; trivial.
  - apply detect_language_returns.
  - now intros ->.
  - intros H. apply S, strip_spaces, H.
  - intros e ->. now destruct (_ || _).
Qed.

Lemma perform_ocr_returns image : exists t, perform_ocr image = Return t.
Proof.
  unfold perform_ocr. destruct external_ocr_available; cbn [negb]; [|now eexists].
  destruct (image_to_string image); now eexists.
Qed.


(** *** The export *)

Lemma before_last_none sep s : ~ In sep s -> before_last sep s = None.
Proof.
  induction s as [|ch s IH]; simpl; trivial. intros H.
  rewrite IH by tauto.
  destruct (ch =? sep)%N eqn:E; trivial. apply N.eqb_eq in E. tauto.
Qed.

Lemma before_last_split sep base ext :
  ~ In sep ext -> before_last sep (base ++ sep :: ext) = Some base.
Proof.
  intros H. induction base as [|ch base IH]; simpl.
  - rewrite (before_last_none sep ext H). now rewrite N.eqb_refl.
  - now rewrite IH.
Qed.

(** The exported file name: the uploaded name up to its last ".", the
    whole name when it has none, followed by "_metadata.json". *)
Theorem export_file_name_strips_extension :
  (forall base ext content,
     ~ In 46%N ext ->
     export_file_name {| name := base ++ 46%N :: ext; read := content |}
     = base ++ lit "_metadata.json")
  /\ (forall whole content,
        ~ In 46%N whole ->
        export_file_name {| name := whole; read := content |}
        = whole ++ lit "_metadata.json").
Proof.
  unfold export_file_name, rsplit1_head. simpl name. split.
  - intros base ext _ H. now rewrite (before_last_split 46%N base ext H).
  - intros whole _ H. now rewrite (before_last_none 46%N whole H).
Qed.

Lemma meta_summary_keys up img exif iptc gps ocr_text lang_code :
  map fst (meta_summary up img exif iptc gps ocr_text lang_code)
  = summary_keys (match gps with Some _ => true | None => false end).
Proof. destruct gps as [[lat lon]|]; reflexivity. Qed.

Lemma meta_summary_gps up img exif iptc gps ocr_text lang_code :
  dict_get (meta_summary up img exif iptc gps ocr_text lang_code) (KStr (lit "gps"))
  = match gps with
    | Some (lat, lon) =>
        Some (VDict [ (KStr (lit "latitude"), VFloat lat);
                      (KStr (lit "longitude"), VFloat lon);
                      (KStr (lit "maps_link"),
                       VStr (lit "https://www.google.com/maps?q=" ++ float_repr lat
                             ++ lit "," ++ float_repr lon)) ])
    | None => None
    end.
Proof. destruct gps as [[lat lon]|]; reflexivity. Qed.

(** What [main] exports when it gets as far as the download button: the
    file name, and the UTF-8 bytes of the JSON text of a summary whose
    fields are, in order, file_name, format, size, mode, exif, iptc, then
    gps exactly when the resolver returned a pair, then ocr_text and
    ocr_language; the gps field holds latitude, longitude and the map
    link. *)
Theorem main_document up img rgb ocr_enabled lang_detect_enabled data file_name :
  main up img rgb ocr_enabled lang_detect_enabled = Return (data, file_name) ->
  file_name = export_file_name up
  /\ exists exif gps iptc ocr_text lang_code doc,
       decode_exif img = Return exif
       /\ extract_gps_from_exif exif = Return gps
       /\ extract_iptc (read up) = Return iptc
       /\ json_dumps (VDict (meta_summary up img exif iptc gps ocr_text lang_code))
          = Return doc
       /\ utf8_encode doc = Return data
       /\ map fst (meta_summary up img exif iptc gps ocr_text lang_code)
          = summary_keys (match gps with Some _ => true | None => false end)
       /\ dict_get (meta_summary up img exif iptc gps ocr_text lang_code)
            (KStr (lit "gps"))
          = match gps with
            | Some (lat, lon) =>
                Some (VDict [ (KStr (lit "latitude"), VFloat lat);
                              (KStr (lit "longitude"), VFloat lon);
                              (KStr (lit "maps_link"),
                               VStr (lit "https://www.google.com/maps?q="
                                     ++ float_repr lat ++ lit ","
                                     ++ float_repr lon)) ])
            | None => None
            end.
Proof.
  unfold main. intros H.
  apply bind_returns in H. destruct H as (exif & E1 & H).
  apply bind_returns in H. destruct H as (gps & E2 & H).
  apply bind_returns in H. destruct H as (iptc & E3 & H).
  apply bind_returns in H. destruct H as (ocr_text & E4 & H).
  apply bind_returns in H. destruct H as (lang_code & E5 & H).
  apply bind_returns in H. destruct H as (doc & E6 & H).
  apply bind_returns in H. destruct H as (json_bytes & E7 & H).
  inversion H; subst. split; trivial.
  exists exif, gps, iptc, ocr_text, lang_code, doc.
  repeat apply conj; trivial.
  - apply meta_summary_keys.
  - apply meta_summary_gps.
Qed.

Lemma main_ocr_text_returns rgb ocr_enabled :
  exists t, main_ocr_text rgb ocr_enabled = Return t.
Proof.
  unfold main_ocr_text. destruct (_ && _); [apply perform_ocr_returns|now eexists].
Qed.

Lemma main_lang_code_returns t lang_detect_enabled :
  exists c, main_lang_code t lang_detect_enabled = Return c.
Proof.
  unfold main_lang_code. destruct (_ && _); [|now eexists].
  apply detect_language_returns.
Qed.

(** C9: an image whose EXIF holds a [bytes] value, as Pillow returns
    [ExifVersion], makes [json.dumps] raise [TypeError]: [main] exports no
    document for it, whatever the libraries and the settings. *)
Theorem main_raises_on_bytes rgb ocr_enabled lang_detect_enabled :
  main photo_upload exif_version_image rgb ocr_enabled lang_detect_enabled
  = Raise TypeError.
Proof.
  unfold main.
  change (decode_exif exif_version_image)
    with (Return [ (KStr (tag_name (KInt 36864)),
                    VBytes [Byte.x30; Byte.x32; Byte.x33; Byte.x31]) ]).
  cbn [bind].
  assert (G : extract_gps_from_exif
                [ (KStr (tag_name (KInt 36864)),
                   VBytes [Byte.x30; Byte.x32; Byte.x33; Byte.x31]) ]
              = Return None).
  { unfold extract_gps_from_exif. simpl dict_get.
    destruct (str_eqb _ _); reflexivity. }
  rewrite G. cbn [bind].
  destruct (extract_iptc_returns (read photo_upload)) as [iptc ->].
  cbn [bind].
  destruct (main_ocr_text_returns rgb ocr_enabled) as [t ->]. cbn [bind].
  destruct (main_lang_code_returns t lang_detect_enabled) as [c ->]. cbn [bind].
  reflexivity.
Qed.

End Extractors.
End AppFacts.

(** ** What the extractors return *)

Module ExtractorFacts.
Import Float64 Py App Float64Facts AppFacts.
Local Open Scope py_scope.

Section Resolver.

Context {rt : Runtime}.

Lemma getitem_truthy v i x : getitem v i = Return x -> truthy v = true.
Proof.
  destruct v as [| | | |s|b|xs|xs|d]; simpl; try discriminate.
  - destruct s; [destruct i|]; simpl; [discriminate..|reflexivity].
  - destruct b; [destruct i|]; simpl; [discriminate..|reflexivity].
  - destruct xs; [destruct i|]; simpl; [discriminate..|reflexivity].
  - destruct xs; [destruct i|]; simpl; [discriminate..|reflexivity].
  - destruct d; simpl; [discriminate|reflexivity].
Qed.

Lemma dict_mem_true d k : dict_mem d k = true -> exists v, dict_get d k = Some v.
Proof. unfold dict_mem. destruct (dict_get d k) as [v|]; [now exists v|discriminate]. Qed.

Lemma upper_ref_inv default entry u :
  method_upper
    (decode_if_bytes (match entry with Some x => x | None => VStr (lit default) end))
  = Return u ->
  exists text, ref_text default entry = Some text /\ u = VStr (upper text).
Proof.
  destruct entry as [[]|]; simpl; intros E; inversion E; eexists; split; reflexivity.
Qed.

(** The resolver on a sub-mapping whose two entries can be subscripted
    at 0, 1 and 2. *)
Lemma resolver_on_items exif gps lat_vals lon_vals a b c a' b' c' :
  dict_get exif gps_key = Some (VDict gps) ->
  dict_get gps (KInt 2) = Some lat_vals ->
  dict_get gps (KInt 4) = Some lon_vals ->
  getitem lat_vals 0 = Return a -> getitem lat_vals 1 = Return b ->
  getitem lat_vals 2 = Return c ->
  getitem lon_vals 0 = Return a' -> getitem lon_vals 1 = Return b' ->
  getitem lon_vals 2 = Return c' ->
  extract_gps_from_exif exif =
    try (u <- method_upper (decode_if_bytes
                (match dict_get gps (KInt 1) with Some x => x | None => VStr (lit "N") end)) ;;
         w <- method_upper (decode_if_bytes
                (match dict_get gps (KInt 3) with Some x => x | None => VStr (lit "E") end)) ;;
         Return (Some
           (round_ndigits 7 (signed (eq_str u (lit "S"))
                               (degrees (component a) (component b) (component c))),
            round_ndigits 7 (signed (eq_str w (lit "W"))
                               (degrees (component a') (component b') (component c'))))))
    except Return None.
Proof.
  intros Hexif Hlat Hlon A0 A1 A2 B0 B1 B2.
  unfold extract_gps_from_exif. fold gps_key. rewrite Hexif.
  rewrite (dict_get_nonempty _ _ Hlat). simpl negb. cbv iota.
  unfold contains_int. rewrite (dict_mem_get _ _ Hlat), (dict_mem_get _ _ Hlon).
  cbn [bind]. unfold method_get. rewrite Hlat, Hlon. cbn [bind].
  rewrite (getitem_truthy _ _ A0), (getitem_truthy _ _ B0). simpl orb. cbv iota.
  unfold gps_try. rewrite A0, A1, A2, B0, B1, B2. cbn [bind].
  rewrite !rational_to_float_returns. cbn [bind].
  rewrite !decimal_degrees_returns. cbn [bind].
  destruct (method_upper (decode_if_bytes match dict_get gps (KInt 1) with _ => _ end)) as [u|e];
    [|reflexivity].
  cbn [bind].
  destruct (method_upper _) as [w|e]; reflexivity.
Qed.

Lemma gps_try_inv lat_ref lon_ref lat_vals lon_vals r :
  gps_try lat_ref lon_ref lat_vals lon_vals = Return r ->
  exists a b c a' b' c',
    getitem lat_vals 0 = Return a /\ getitem lat_vals 1 = Return b
    /\ getitem lat_vals 2 = Return c
    /\ getitem lon_vals 0 = Return a' /\ getitem lon_vals 1 = Return b'
    /\ getitem lon_vals 2 = Return c'.
Proof.
  unfold gps_try. intros H.
  apply bind_returns in H. destruct H as (a & A0 & H).
  apply bind_returns in H. destruct H as (? & _ & H).
  apply bind_returns in H. destruct H as (b & A1 & H).
  apply bind_returns in H. destruct H as (? & _ & H).
  apply bind_returns in H. destruct H as (c & A2 & H).
  apply bind_returns in H. destruct H as (? & _ & H).
  apply bind_returns in H. destruct H as (a' & B0 & H).
  apply bind_returns in H. destruct H as (? & _ & H).
  apply bind_returns in H. destruct H as (b' & B1 & H).
  apply bind_returns in H. destruct H as (? & _ & H).
  apply bind_returns in H. destruct H as (c' & B2 & H).
  now exists a, b, c, a', b', c'.
Qed.

Lemma resolver_present exif gps lat lon :
  dict_get exif gps_key = Some (VDict gps) ->
  extract_gps_from_exif exif = Return (Some (lat, lon)) <->
  exists lat_vals lon_vals a b c a' b' c' lat_ref lon_ref,
    dict_get gps (KInt 2) = Some lat_vals /\ dict_get gps (KInt 4) = Some lon_vals
    /\ (getitem lat_vals 0 = Return a /\ getitem lat_vals 1 = Return b
        /\ getitem lat_vals 2 = Return c)
    /\ (getitem lon_vals 0 = Return a' /\ getitem lon_vals 1 = Return b'
        /\ getitem lon_vals 2 = Return c')
    /\ ref_text "N" (dict_get gps (KInt 1)) = Some lat_ref
    /\ ref_text "E" (dict_get gps (KInt 3)) = Some lon_ref
    /\ lat = round_ndigits 7 (signed (str_eqb (upper lat_ref) (lit "S"))
                                (degrees (component a) (component b) (component c)))
    /\ lon = round_ndigits 7 (signed (str_eqb (upper lon_ref) (lit "W"))
                                (degrees (component a') (component b') (component c'))).
Proof.
  intros Hexif. split.
  - intros H. pose proof H as H0.
    unfold extract_gps_from_exif in H. fold gps_key in H. rewrite Hexif in H.
    destruct (negb (truthy (VDict gps))); [discriminate|].
    cbn [contains_int bind] in H.
    destruct (dict_mem gps (KInt 2)) eqn:M2; cbn [bind] in H; [|discriminate].
    destruct (dict_mem gps (KInt 4)) eqn:M4; cbn [bind] in H; [|discriminate].
    destruct (dict_mem_true _ _ M2) as [lat_vals Hlat].
    destruct (dict_mem_true _ _ M4) as [lon_vals Hlon].
    unfold method_get in H. rewrite Hlat, Hlon in H. cbn [bind] in H.
    destruct (_ || _); [discriminate|].
    unfold try_except in H.
    destruct (gps_try _ _ lat_vals lon_vals) as [r|e] eqn:E; [|discriminate].
    destruct (gps_try_inv _ _ _ _ E) as (a & b & c & a' & b' & c' & A0 & A1 & A2 & B0 & B1 & B2).
    rewrite (resolver_on_items _ Hexif Hlat Hlon A0 A1 A2 B0 B1 B2) in H0.
    destruct (method_upper (decode_if_bytes match dict_get gps (KInt 1) with _ => _ end))
      as [u|e] eqn:U1; [|discriminate].
    destruct (upper_ref_inv _ _ U1) as (lat_ref & R1 & ->).
    cbn [bind] in H0.
    destruct (method_upper _) as [w|e] eqn:U3; [|discriminate].
    destruct (upper_ref_inv _ _ U3) as (lon_ref & R3 & ->).
    cbn [bind try_except eq_str] in H0. inversion H0.
    exists lat_vals, lon_vals, a, b, c, a', b', c', lat_ref, lon_ref.
    repeat apply conj; trivial.
  - intros (lat_vals & lon_vals & a & b & c & a' & b' & c' & lat_ref & lon_ref
            & Hlat & Hlon & (A0 & A1 & A2) & (B0 & B1 & B2) & R1 & R3 & -> & ->).
    rewrite (resolver_on_items _ Hexif Hlat Hlon A0 A1 A2 B0 B1 B2).
    rewrite (upper_ref_text _ _ R1), (upper_ref_text _ _ R3). reflexivity.
Qed.

Lemma resolver_returns_on_dict exif gps :
  dict_get exif gps_key = Some (VDict gps) ->
  exists r, extract_gps_from_exif exif = Return r.
Proof.
  intros H. unfold extract_gps_from_exif. fold gps_key. rewrite H.
  destruct (truthy (VDict gps)); [|now eexists]. cbn [negb contains_int bind].
  destruct (dict_mem gps (KInt 2)); cbn [bind]; [|now eexists].
  destruct (dict_mem gps (KInt 4)); cbn [bind method_get]; [|now eexists].
  destruct (_ || _); [now eexists|].
  destruct (gps_try _ _ _ _); now eexists.
Qed.

(** When the GPS entry is a dictionary, the resolver returns a pair
    exactly when the entries 2 and 4 are there, each can be subscripted at
    0, 1 and 2, and each reference is absent, a string or bytes; the pair
    is then the rounded decimal degrees of the six items.  A string, a
    bytes, a longer sequence or a dictionary with the keys 0, 1, 2 serves
    as well as a triple.  In every other case it returns absent. *)
Theorem resolver_present_iff exif gps :
  dict_get exif gps_key = Some (VDict gps) ->
  (forall lat lon,
     extract_gps_from_exif exif = Return (Some (lat, lon)) <->
     exists lat_vals lon_vals a b c a' b' c' lat_ref lon_ref,
       dict_get gps (KInt 2) = Some lat_vals /\ dict_get gps (KInt 4) = Some lon_vals
       /\ (getitem lat_vals 0 = Return a /\ getitem lat_vals 1 = Return b
           /\ getitem lat_vals 2 = Return c)
       /\ (getitem lon_vals 0 = Return a' /\ getitem lon_vals 1 = Return b'
           /\ getitem lon_vals 2 = Return c')
       /\ ref_text "N" (dict_get gps (KInt 1)) = Some lat_ref
       /\ ref_text "E" (dict_get gps (KInt 3)) = Some lon_ref
       /\ lat = round_ndigits 7 (signed (str_eqb (upper lat_ref) (lit "S"))
                                   (degrees (component a) (component b) (component c)))
       /\ lon = round_ndigits 7 (signed (str_eqb (upper lon_ref) (lit "W"))
                                   (degrees (component a') (component b') (component c'))))
  /\ ((forall lat lon, extract_gps_from_exif exif <> Return (Some (lat, lon))) ->
      extract_gps_from_exif exif = Return None).
Proof.
  intros Hexif. split.
  - intros lat lon. now apply resolver_present.
  - intros H. destruct (resolver_returns_on_dict _ Hexif) as [[[lat lon]|] E]; [|exact E].
    now destruct (H lat lon).
Qed.


(** Whatever the six items are, the reference only decides the sign: the
    result under a reference whose upper-case form is "S" is, bit for
    bit, the negation of the result under a reference that does not
    flip, the other axis being the same. *)
Theorem south_negates_north exif exif' gps gps' lat_vals lon_vals a b c a' b' c'
    lat_ref lat_ref' lon_ref lon_ref' :
  dict_get exif gps_key = Some (VDict gps) ->
  dict_get exif' gps_key = Some (VDict gps') ->
  dict_get gps (KInt 2) = Some lat_vals -> dict_get gps' (KInt 2) = Some lat_vals ->
  dict_get gps (KInt 4) = Some lon_vals -> dict_get gps' (KInt 4) = Some lon_vals ->
  is_triple lat_vals a b c -> is_triple lon_vals a' b' c' ->
  ref_text "N" (dict_get gps (KInt 1)) = Some lat_ref ->
  ref_text "N" (dict_get gps' (KInt 1)) = Some lat_ref' ->
  ref_text "E" (dict_get gps (KInt 3)) = Some lon_ref ->
  ref_text "E" (dict_get gps' (KInt 3)) = Some lon_ref' ->
  upper lat_ref = lit "S" -> upper lat_ref' <> lit "S" ->
  upper lon_ref = upper lon_ref' ->
  exists lat lon,
    extract_gps_from_exif exif' = Return (Some (lat, lon))
    /\ extract_gps_from_exif exif = Return (Some (fneg lat, lon)).
Proof.
  intros E E' L2 L2' L4 L4' T T' R1 R1' R3 R3' S N W.
  rewrite (resolver_on_text _ E L2 T L4 T' R1 R3).
  rewrite (resolver_on_text _ E' L2' T L4' T' R1' R3').
  rewrite S, (str_eqb_neq N), W, !signed_round. simpl signed at 1 3.
  now eexists _, _.
Qed.

Lemma malformed_component v : malformed v -> component v = pos_zero.
Proof.
  unfold component, _rational_to_float.
  intros [[e E]|(n & d & -> & T)].
  - now rewrite E.
  - cbn -[float_of]. now rewrite T.
Qed.

(** A component that cannot be converted counts as 0.0 and does not make
    the result absent: when all six are malformed the resolver returns
    the pair of zeros, negative under "S" and "W". *)
Theorem malformed_components_count_as_zero exif gps lat_vals lon_vals
    a b c a' b' c' lat_ref lon_ref :
  dict_get exif gps_key = Some (VDict gps) ->
  dict_get gps (KInt 2) = Some lat_vals -> is_triple lat_vals a b c ->
  dict_get gps (KInt 4) = Some lon_vals -> is_triple lon_vals a' b' c' ->
  ref_text "N" (dict_get gps (KInt 1)) = Some lat_ref ->
  ref_text "E" (dict_get gps (KInt 3)) = Some lon_ref ->
  Forall malformed [a; b; c; a'; b'; c'] ->
  extract_gps_from_exif exif =
    Return (Some (signed (str_eqb (upper lat_ref) (lit "S")) pos_zero,
                  signed (str_eqb (upper lon_ref) (lit "W")) pos_zero)).
Proof.
  intros E L2 T L4 T' R1 R3 M.
  repeat match goal with
         | H : Forall _ (_ :: _) |- _ => inversion H; subst; clear H
         end.
  rewrite (resolver_on_text _ E L2 T L4 T' R1 R3).
  rewrite !malformed_component by assumption.
  now destruct (str_eqb (upper lat_ref) _), (str_eqb (upper lon_ref) _).
Qed.

(** The resolver reads nothing of the map but the entry "GPSInfo". *)
Lemma resolver_reads_gps_entry exif exif' :
  dict_get exif gps_key = dict_get exif' gps_key ->
  extract_gps_from_exif exif = extract_gps_from_exif exif'.
Proof. unfold extract_gps_from_exif. fold gps_key. now intros ->. Qed.

End Resolver.

(** *** Dictionaries filled in a loop *)

Section Filling.

Variables (A : Type) (f : A -> str) (g : A -> value).

Lemma fill_cons x l acc :
  fill f g (x :: l) acc = fill f g l (dict_set acc (KStr (f x)) (g x)).
Proof. reflexivity. Qed.

Lemma fill_app l l' acc : fill f g (l ++ l') acc = fill f g l' (fill f g l acc).
Proof. apply fold_left_app. Qed.

Lemma fill_other l : forall acc name,
  (forall x, In x l -> f x <> name) ->
  dict_get (fill f g l acc) (KStr name) = dict_get acc (KStr name).
Proof.
  induction l as [|x l IH]; intros acc name H; [reflexivity|].
  rewrite fill_cons, IH by (intros y Hy; apply H; now right).
  apply dict_get_set_other. simpl. apply str_eqb_neq, H. now left.
Qed.

(** The last [x] with a given name decides the value under that name. *)
Lemma fill_last before x after acc :
  (forall y, In y after -> f y <> f x) ->
  dict_get (fill f g (before ++ x :: after) acc) (KStr (f x)) = Some (g x).
Proof.
  intros H. rewrite fill_app, fill_cons, fill_other by exact H.
  apply dict_get_set_same.
Qed.

Lemma dict_set_keys d k v k' :
  In k' (map fst (dict_set d k v)) -> k' = k \/ In k' (map fst d).
Proof.
  induction d as [|[k0 v0] d IH]; simpl.
  - intros [<-|[]]. now left.
  - destruct (key_eqb k0 k); simpl; intros [<-|H]; auto.
    destruct (IH H); auto.
Qed.

Lemma dict_set_nodup d k v : NoDup (map fst d) -> NoDup (map fst (dict_set d k v)).
Proof.
  induction d as [|[k0 v0] d IH]; simpl; intros H.
  - constructor; [intros []|constructor].
  - inversion H as [|? ? Hn Hd]; subst.
    destruct (key_eqb k0 k) eqn:E; simpl.
    + now constructor.
    + constructor; [|now apply IH].
      intros Hin. destruct (dict_set_keys _ _ _ _ Hin) as [->|Hin']; [|now apply Hn].
      now rewrite key_eqb_refl in E.
Qed.

Lemma dict_set_in d k v n x :
  In (n, x) (dict_set d k v) -> In (n, x) d \/ (n = k /\ x = v).
Proof.
  induction d as [|[k0 v0] d IH]; simpl.
  - intros [E|[]]. inversion E. now right.
  - destruct (key_eqb k0 k) eqn:E; simpl.
    + intros [H|H]; [|now left; right].
      inversion H; subst. right. split; [now apply key_eqb_eq|reflexivity].
    + intros [H|H]; [now left; left|].
      destruct (IH H) as [H'|H']; [now left; right|now right].
Qed.

Lemma fill_nodup l : forall acc,
  NoDup (map fst acc) -> NoDup (map fst (fill f g l acc)).
Proof.
  induction l as [|x l IH]; intros acc H; [exact H|].
  rewrite fill_cons. now apply IH, dict_set_nodup.
Qed.

(** Every entry was there before or was put there for some [x]. *)
Lemma fill_in l : forall acc n v,
  In (n, v) (fill f g l acc) ->
  In (n, v) acc \/ exists x, In x l /\ n = KStr (f x) /\ v = g x.
Proof.
  induction l as [|x l IH]; intros acc n v H; [now left|].
  rewrite fill_cons in H. destruct (IH _ _ _ H) as [H'|(y & Hy & E)].
  - destruct (dict_set_in _ _ _ _ _ H') as [H''|[-> ->]]; [now left|].
    right. exists x. split; [now left|now split].
  - right. exists y. split; [now right|exact E].
Qed.

End Filling.

Section Extractors.

Context {rt : Runtime} {libs : Libraries}.

Lemma decode_items_fill raw acc :
  decode_items raw acc = fill (fun item => tag_name (fst item)) snd raw acc.
Proof. reflexivity. Qed.

(** [decode_exif] invents nothing: the mapping it returns has each name
    once, and every entry is the name and the value of a raw item. *)
Theorem decode_exif_entries image exif_data :
  decode_exif image = Return exif_data ->
  NoDup (map fst exif_data)
  /\ (forall n v, In (n, v) exif_data ->
        exists raw tag_id,
          _getexif image = Some (Return (Some raw))
          /\ In (tag_id, v) raw /\ n = KStr (tag_name tag_id)).
Proof.
  unfold decode_exif. intros H.
  destruct (_getexif image) as [[[raw|]|e]|]; cbn [bind] in H; try discriminate.
  - destruct (negb (truthy (VDict raw))); inversion H; subst.
    + split; [constructor|intros ? ? []].
    + rewrite decode_items_fill. split.
      * apply fill_nodup. constructor.
      * intros n v Hin. destruct (fill_in _ _ _ _ _ _ Hin) as [[]|([tag_id w] & Hx & -> & ->)].
        now exists raw, tag_id.
  - inversion H. split; [constructor|intros ? ? []].
  - inversion H. split; [constructor|intros ? ? []].
Qed.

(** The resolver after the decoder: it sees the value of the last raw
    tag that the table names "GPSInfo", and returns absent when the table
    gives that name to no raw tag, whatever the raw items hold. *)
Theorem resolver_after_decode image raw :
  _getexif image = Some (Return (Some raw)) ->
  exists exif,
    decode_exif image = Return exif
    /\ ((forall item, In item raw -> tag_name (fst item) <> lit "GPSInfo") ->
        extract_gps_from_exif exif = Return None)
    /\ (forall before tag_id v after,
          raw = before ++ (tag_id, v) :: after ->
          tag_name tag_id = lit "GPSInfo" ->
          (forall item, In item after -> tag_name (fst item) <> lit "GPSInfo") ->
          extract_gps_from_exif exif = extract_gps_from_exif [(gps_key, v)]).
Proof.
  intros G. unfold decode_exif. rewrite G. cbn [bind].
  destruct raw as [|item raw].
  - exists []. repeat apply conj; trivial.
    intros before ? ? ? E. now destruct before.
  - exists (decode_items (item :: raw) []). repeat apply conj; trivial.
    + intros H. rewrite (resolver_reads_gps_entry _ []); [reflexivity|].
      unfold gps_key. rewrite decode_items_fill. now rewrite fill_other.
    + intros before tag_id v after E N H.
      apply resolver_reads_gps_entry. rewrite E, decode_items_fill.
      unfold gps_key at 1. rewrite <- N.
      rewrite (fill_last (fun item => tag_name (fst item)) snd before (tag_id, v) after).
      * reflexivity.
      * intros y Hy. simpl. rewrite N. now apply H.
Qed.

Lemma iptc_loop_fill info keys : forall acc,
  iptc_iter_error info = None ->
  (forall k, In k keys -> exists v, iptc_getitem info k = Return v) ->
  iptc_loop info keys acc = Return (fill str_of_key (iptc_stored info) keys acc).
Proof.
  induction keys as [|k keys IH]; intros acc N H.
  - simpl. now rewrite N.
  - destruct (H k (or_introl eq_refl)) as [v G].
    assert (S : iptc_stored info k = stored_value v)
      by (unfold iptc_stored; now rewrite G).
    rewrite fill_cons, S. cbn [iptc_loop]. unfold iptc_step. rewrite G.
    cbn [bind try_except].
    apply IH; trivial. intros k' Hk. apply H. now right.
Qed.

(** [extract_iptc] when the library is there and nothing raises: the
    mapping has each name once; under [str(key)] it holds what the last
    key of that name gave, a [bytes] decoded and anything else as it is;
    it holds nothing else, and no value of it is a [bytes]. *)
Theorem extract_iptc_entries image_bytes info :
  iptc_available = true ->
  IPTCInfo image_bytes = Return info ->
  iptc_iter_error info = None ->
  (forall k, In k (iptc_keys info) -> exists v, iptc_getitem info k = Return v) ->
  exists iptc_data,
    extract_iptc image_bytes = Return iptc_data
    /\ NoDup (map fst iptc_data)
    /\ (forall before k after v,
          iptc_keys info = before ++ k :: after ->
          iptc_getitem info k = Return v ->
          (forall k', In k' after -> str_of_key k' <> str_of_key k) ->
          dict_get iptc_data (KStr (str_of_key k)) = Some (stored_value v))
    /\ (forall n x, In (n, x) iptc_data ->
          exists k v, In k (iptc_keys info) /\ iptc_getitem info k = Return v
                      /\ n = KStr (str_of_key k) /\ x = stored_value v)
    /\ (forall n x b, In (n, x) iptc_data -> x <> VBytes b).
Proof.
  intros Av Hinfo N H.
  assert (In_ : forall n x, In (n, x) (fill str_of_key (iptc_stored info) (iptc_keys info) []) ->
                exists k v, In k (iptc_keys info) /\ iptc_getitem info k = Return v
                            /\ n = KStr (str_of_key k) /\ x = stored_value v).
  { intros n x Hin. destruct (fill_in _ _ _ _ _ _ Hin) as [[]|(k & Hk & -> & ->)].
    destruct (H k Hk) as [v G]. exists k, v. unfold iptc_stored. now rewrite G. }
  exists (fill str_of_key (iptc_stored info) (iptc_keys info) []).
  repeat apply conj.
  - unfold extract_iptc. rewrite Av, Hinfo. cbn [negb bind].
    now rewrite (iptc_loop_fill info (iptc_keys info) [] N H).
  - apply fill_nodup. constructor.
  - intros before k after v E G Hafter. rewrite E.
    rewrite (fill_last str_of_key (iptc_stored info) before k after [] Hafter).
    unfold iptc_stored. now rewrite G.
  - exact In_.
  - intros n x b Hin. destruct (In_ n x Hin) as (k & v & _ & _ & _ & ->).
    now destruct v.
Qed.

End Extractors.
End ExtractorFacts.

(** ** What [main] exports *)

Module ExportFacts.
Import Float64 Py App Float64Facts AppFacts ExtractorFacts.
Local Open Scope py_scope.


Section Json.

Context {rt : Runtime}.




End Json.

Section Document.

Context {rt : Runtime} {libs : Libraries}.


(** *** The optional steps *)

Lemma perform_ocr_text image :
  exists t, perform_ocr image = Return t
    /\ (t <> [] -> external_ocr_available = true /\ image_to_string image = Return t).
Proof.
  unfold perform_ocr. destruct external_ocr_available; cbn [negb].
  - destruct (image_to_string image) as [t|e]; cbn [try_except].
    + exists t. now split.
    + exists []. now split.
  - exists []. now split.
Qed.

Lemma lstrip_nil s : lstrip s = [] -> forallb is_space s = true.
Proof.
  induction s as [|ch s IH]; simpl; trivial.
  destruct (is_space ch); [exact IH|discriminate].
Qed.

Lemma lstrip_all_space s : forallb is_space (lstrip s) = true -> lstrip s = [].
Proof.
  induction s as [|ch s IH]; simpl; trivial.
  destruct (is_space ch) eqn:E; [exact IH|].
  simpl. rewrite E. discriminate.
Qed.

Lemma forallb_rev {A} (p : A -> bool) l : forallb p (rev l) = forallb p l.
Proof.
  induction l as [|x l IH]; simpl; trivial.
  rewrite forallb_app, IH. simpl. rewrite andb_true_r. apply andb_comm.
Qed.

(** [s.strip()] is empty exactly when [s] holds white space only. *)
Lemma strip_nil_iff s : strip s = [] <-> forallb is_space s = true.
Proof.
  split; [|apply strip_spaces].
  unfold strip. intros H.
  assert (H' : lstrip (rev (lstrip s)) = []).
  { destruct (lstrip (rev (lstrip s))) as [|ch l]; trivial.
    simpl in H. now destruct (rev l). }
  apply lstrip_nil in H'. rewrite forallb_rev in H'.
  now apply lstrip_nil, lstrip_all_space.
Qed.

Lemma not_all_space s :
  forallb is_space s <> true <-> exists ch, In ch s /\ is_space ch = false.
Proof.
  induction s as [|ch s IH]; simpl.
  - split; [congruence|intros (? & [] & _)].
  - destruct (is_space ch) eqn:E; simpl.
    + rewrite IH. split.
      * intros (c & Hc & Hs). exists c. auto.
      * intros (c & [<-|Hc] & Hs); [congruence|now exists c].
    + split; [|discriminate]. intros _. exists ch. auto.
Qed.

Lemma detect_language_code text code :
  detect_language text = Return (Some code) <->
  language_detection_available = true
  /\ (exists ch, In ch text /\ is_space ch = false)
  /\ detect text = Return code.
Proof.
  unfold detect_language. rewrite <- not_all_space, <- strip_nil_iff. split.
  - destruct language_detection_available; cbn [negb orb]; [|discriminate].
    destruct (strip text) as [|ch s]; cbn; [discriminate|].
    destruct (detect text) as [c|e]; cbn; [|discriminate].
    intros H. inversion H. repeat split. discriminate.
  - intros (-> & N & ->). cbn [negb orb bind try_except].
    destruct (strip text); [now destruct N|reflexivity].
Qed.

(** [detect_language] returns a code exactly when the capability is
    there, the text holds a character that is not white space, and the
    detector returns that code; in every other case it returns absent. *)
Theorem detect_language_some text :
  (forall code,
     detect_language text = Return (Some code) <->
     language_detection_available = true
     /\ (exists ch, In ch text /\ is_space ch = false)
     /\ detect text = Return code)
  /\ ((forall code, detect_language text <> Return (Some code)) ->
      detect_language text = Return None).
Proof.
  split; [intros code; apply detect_language_code|].
  intros H. destruct (detect_language_returns text) as [[code|] E]; [|exact E].
  now destruct (H code).
Qed.

Lemma main_ocr_text_outcome rgb ocr_enabled t :
  main_ocr_text rgb ocr_enabled = Return t ->
  (ocr_enabled = false -> t = [])
  /\ (forall t', ocr_enabled = true -> external_ocr_available = true ->
        image_to_string rgb = Return t' -> t = t')
  /\ (t <> [] -> ocr_enabled = true /\ external_ocr_available = true
                 /\ image_to_string rgb = Return t).
Proof.
  unfold main_ocr_text. intros H. repeat apply conj.
  - intros ->. cbn [andb] in H. congruence.
  - intros t' -> Av I. rewrite Av in H. cbn [andb] in H.
    unfold perform_ocr in H. rewrite Av, I in H. cbn [negb try_except] in H.
    congruence.
  - intros N. destruct ocr_enabled; cbn [andb] in H; [|congruence].
    destruct external_ocr_available eqn:Av; [|congruence].
    destruct (perform_ocr_text rgb) as (t0 & Ht & Hn).
    rewrite Ht in H. inversion H; subst t0.
    destruct (Hn N) as [_ I]. now repeat split.
Qed.

Lemma main_lang_code_some t lang_detect_enabled code :
  main_lang_code t lang_detect_enabled = Return (Some code) <->
  lang_detect_enabled = true /\ language_detection_available = true
  /\ (exists ch, In ch t /\ is_space ch = false)
  /\ detect t = Return code.
Proof.
  unfold main_lang_code. split.
  - destruct lang_detect_enabled; cbn [andb]; [|discriminate].
    destruct (truthy (VStr (strip t))); cbn [andb]; [|discriminate].
    destruct language_detection_available eqn:Av; [|discriminate].
    intros H. apply detect_language_code in H. tauto.
  - intros (-> & Av & N & D).
    assert (H : detect_language t = Return (Some code))
      by (apply detect_language_code; tauto).
    rewrite H, Av. cbn [andb].
    destruct (truthy (VStr (strip t))) eqn:T; [reflexivity|].
    exfalso. apply not_all_space in N. apply N, strip_nil_iff.
    simpl in T. now destruct (strip t).
Qed.

Lemma meta_summary_ocr up img exif iptc gps t c :
  dict_get (meta_summary up img exif iptc gps t c) (KStr (lit "ocr_text"))
  = Some (VStr t)
  /\ dict_get (meta_summary up img exif iptc gps t c) (KStr (lit "ocr_language"))
     = Some (match c with Some code => VStr code | None => VNone end).
Proof. destruct gps as [[lat lon]|]; split; reflexivity. Qed.

(** The two settings of [main], in the summary it exports.  Whenever
    [main] exports a document, the document is the JSON text of a summary
    whose [ocr_text] and [ocr_language] fields hold these values: with
    text recognition switched off, the empty text and no language,
    whatever the libraries and the other setting are; with it switched on
    and the capability there, the text the OCR library returned, so that
    a non-empty text is always the library's; and a language code exactly
    when language detection is switched on, the capability is there, the
    text holds a character that is not white space and the detector
    returns that code. *)
Theorem main_settings up img rgb ocr_enabled lang_detect_enabled data file_name :
  main up img rgb ocr_enabled lang_detect_enabled = Return (data, file_name) ->
  exists exif gps iptc ocr_text lang_code doc,
    json_dumps (VDict (meta_summary up img exif iptc gps ocr_text lang_code))
    = Return doc
    /\ utf8_encode doc = Return data
    /\ dict_get (meta_summary up img exif iptc gps ocr_text lang_code)
         (KStr (lit "ocr_text"))
       = Some (VStr ocr_text)
    /\ dict_get (meta_summary up img exif iptc gps ocr_text lang_code)
         (KStr (lit "ocr_language"))
       = Some (match lang_code with Some code => VStr code | None => VNone end)
    /\ (ocr_enabled = false -> ocr_text = [] /\ lang_code = None)
    /\ (forall t, ocr_enabled = true -> external_ocr_available = true ->
          image_to_string rgb = Return t -> ocr_text = t)
    /\ (ocr_text <> [] ->
        ocr_enabled = true /\ external_ocr_available = true
        /\ image_to_string rgb = Return ocr_text)
    /\ (forall code,
          lang_code = Some code <->
          lang_detect_enabled = true /\ language_detection_available = true
          /\ (exists ch, In ch ocr_text /\ is_space ch = false)
          /\ detect ocr_text = Return code).
Proof.
  unfold main. intros H.
  apply bind_returns in H. destruct H as (exif & _ & H).
  apply bind_returns in H. destruct H as (gps & _ & H).
  apply bind_returns in H. destruct H as (iptc & _ & H).
  apply bind_returns in H. destruct H as (ocr_text & E4 & H).
  apply bind_returns in H. destruct H as (lang_code & E5 & H).
  apply bind_returns in H. destruct H as (doc & E6 & H).
  apply bind_returns in H. destruct H as (json_bytes & E7 & H).
  inversion H; subst.
  destruct (main_ocr_text_outcome _ _ E4) as (Off & On & Text).
  assert (L : forall code,
            lang_code = Some code <->
            lang_detect_enabled = true /\ language_detection_available = true
            /\ (exists ch, In ch ocr_text /\ is_space ch = false)
            /\ detect ocr_text = Return code).
  { intros code. rewrite <- main_lang_code_some, E5. split; congruence. }
  exists exif, gps, iptc, ocr_text, lang_code, doc.
  split; [exact E6|]. split; [exact E7|].
  split; [apply meta_summary_ocr|]. split; [apply meta_summary_ocr|].
  split; [|split; [exact On|split; [exact Text|exact L]]].
  intros Hoff. split; [exact (Off Hoff)|].
  destruct lang_code as [code|]; trivial.
  destruct (proj1 (L code) eq_refl) as (_ & _ & (ch & Hin & _) & _).
  rewrite (Off Hoff) in Hin. destruct Hin.
Qed.

End Document.
End ExportFacts.

(** * The theorems on sample inputs *)

Module Checks.
Import Float64 Py App AppFacts.
Open Scope Z_scope.


(** C1 as stated fails: the sub-mapping of the example with the integer
    5 as latitude reference holds both triples, and the resolver returns
    absent for it. *)
Lemma gps_triples_counterexample :
  ~ (forall (rt : Runtime) exif gps lat_vals lon_vals a b c a' b' c',
       dict_get exif gps_key = Some (VDict gps) ->
       dict_get gps (KInt 2) = Some lat_vals -> is_triple lat_vals a b c ->
       dict_get gps (KInt 4) = Some lon_vals -> is_triple lon_vals a' b' c' ->
       extract_gps_from_exif exif =
         Return (Some
           (round_ndigits 7 (signed (reads_as "N" "S" (dict_get gps (KInt 1)))
                               (degrees (component a) (component b) (component c))),
            round_ndigits 7 (signed (reads_as "E" "W" (dict_get gps (KInt 3)))
                               (degrees (component a') (component b') (component c')))))).
Proof.
  intros H.
  specialize (H sample_runtime numeric_ref_exif _ _ _ _ _ _ _ _ _
                eq_refl eq_refl (or_introl eq_refl) eq_refl (or_introl eq_refl)).
  vm_compute in H. discriminate H.
Qed.

(** C3 as stated fails: a latitude of 100 and a longitude of 200 degrees
    are returned as they are. *)
Lemma resolver_range_counterexample :
  ~ (forall (rt : Runtime) exif lat lon,
       extract_gps_from_exif exif = Return (Some (lat, lon)) ->
       between (of_Z (-90)) (of_Z 90) lat = true
       /\ between (of_Z (-180)) (of_Z 180) lon = true
       /\ is_rounded 7 lat /\ is_rounded 7 lon).
Proof.
  intros H.
  destruct (H sample_runtime out_of_range_exif (of_Z 100) (of_Z 200) eq_refl) as [A _].
  vm_compute in A. discriminate A.
Qed.

Lemma resolver_output_rounded_witness :
  is_rounded 7 (of_Z 100) /\ is_rounded 7 (of_Z 200).
Proof.
  exact (@resolver_output_rounded sample_runtime out_of_range_exif
           (of_Z 100) (of_Z 200) eq_refl).
Defined.

Lemma pittsburgh_nonneg :
  Forall nonneg_rational
    [VInt 40; VInt 26; VFloat (decimal false 46302 3);
     VInt 79; VInt 56; VFloat (decimal false 55163 3)].
Proof. repeat constructor; try lia; reflexivity. Qed.

(** C4 at the example: north latitude, west longitude. *)
Lemma gps_reference_sign_witness :
  exists lat lon,
    extract_gps_from_exif (rt := sample_runtime) pittsburgh_exif = Return (Some (lat, lon))
    /\ fleb pos_zero lat = true /\ fleb lon pos_zero = true.
Proof.
  destruct (@gps_reference_sign sample_runtime pittsburgh_exif pittsburgh_gps
              _ _ _ _ _ _ _ _ (lit "N") (lit "W")
              eq_refl eq_refl (or_introl eq_refl) eq_refl (or_introl eq_refl)
              pittsburgh_nonneg eq_refl eq_refl)
    as (lat & lon & E & P & _ & N & _ & _ & W).
  exists lat, lon. split; [exact E|]. split.
  - rewrite (N eq_refl). exact P.
  - exact (proj2 (W (or_introl eq_refl))).
Defined.

(** C5 at the rational 46302/1000. *)
Lemma rational_to_float_total_witness :
  _rational_to_float (rt := sample_runtime) (VTuple [VInt 46302; VInt 1000])
  = Return (decimal false 46302 3).
Proof.
  exact (proj1 (proj2 (@rational_to_float_total sample_runtime
                         (VTuple [VInt 46302; VInt 1000])))
           (VInt 46302) (VInt 1000) (of_Z 46302) (of_Z 1000)
           eq_refl eq_refl eq_refl eq_refl eq_refl).
Defined.

(** C7 with a parser whose second lookup raises. *)
Lemma extract_iptc_fallback_witness :
  extract_iptc (rt := sample_runtime) (libs := broken_iptc_libraries) [] = Return [].
Proof.
  refine (proj2 (proj2 (proj2 (@extract_iptc_fallback sample_runtime
                                 broken_iptc_libraries []))) _ eq_refl _).
  right. exists (KInt 25), (LibraryError 1). split; [simpl; tauto|reflexivity].
Defined.

(** C8 on a text of two spaces, with the capability present. *)
Lemma detect_language_fallback_witness :
  detect_language (libs := sample_libraries) (lit "  ") = Return None.
Proof.
  exact (proj1 (proj2 (proj2 (proj2 (@detect_language_fallback sample_libraries
                                       (lit "  "))))) eq_refl).
Defined.

(** C10 as stated fails: with the integer 5 where the latitude reference
    should be the resolver returns absent, although the same sub-mapping
    without the entry, which reads as "N", gives the pair. *)
Lemma numeric_reference_absent :
  extract_gps_from_exif (rt := sample_runtime) numeric_ref_exif = Return None
  /\ extract_gps_from_exif (rt := sample_runtime) no_ref_exif
     = Return (Some (decimal false 404461950 7, decimal true 799486564 7)).
Proof. split; vm_compute; reflexivity. Qed.

(** C10 (amended) at the references "X" and "". *)
Lemma unrecognized_reference_witness :
  extract_gps_from_exif (rt := sample_runtime) unknown_ref_exif
  = Return (Some (decimal false 404461950 7, decimal false 799486564 7)).
Proof.
  destruct (proj1 (@unrecognized_reference sample_runtime unknown_ref_exif _ _ _
                     _ _ _ _ _ _ eq_refl eq_refl (or_introl eq_refl)
                     eq_refl (or_introl eq_refl))
              (lit "X") [] eq_refl eq_refl)
    as (lat & lon & E & L1 & L2 & _).
  rewrite E, L1, L2 by (vm_compute; discriminate). reflexivity.
Defined.

Lemma resolver_returns_on_mappings_witness :
  extract_gps_from_exif (rt := sample_runtime) latitude_only_exif = Return None.
Proof.
  refine (proj2 (proj1 (@resolver_returns_on_mappings sample_runtime latitude_only_exif)
                   _ eq_refl) _).
  right. reflexivity.
Defined.

Lemma decode_exif_names_witness :
  decode_exif (libs := sample_libraries) plain_image = Return [].
Proof. exact (proj1 (@decode_exif_names sample_libraries plain_image) eq_refl). Defined.

Lemma export_file_name_witness :
  export_file_name photo_upload = lit "photo_metadata.json".
Proof.
  refine (proj1 export_file_name_strips_extension (lit "photo") (lit "jpg") [] _).
  simpl. intuition discriminate.
Defined.

Lemma main_document_witness :
  lit "photo_metadata.json" = export_file_name photo_upload
  /\ exists doc, utf8_encode doc = Return plain_document.
Proof.
  destruct (@main_document sample_runtime sample_libraries photo_upload plain_image
              plain_image false false plain_document (lit "photo_metadata.json") eq_refl)
    as (F & exif & gps & iptc & t & c & doc & _ & _ & _ & _ & U & _).
  split; [exact F|]. now exists doc.
Defined.

(** ** Samples for the extractors and the export *)

Import ExtractorFacts ExportFacts.

(** A latitude given as the string "abc", none of whose characters is a
    number, and a longitude given as a dictionary. *)
Lemma resolver_present_iff_witness :
  extract_gps_from_exif (rt := sample_runtime) odd_shapes_exif
  = Return (Some (pos_zero, decimal false 799486564 7)).
Proof.
  apply (proj2 (proj1 (@resolver_present_iff sample_runtime odd_shapes_exif _ eq_refl)
                  pos_zero (decimal false 799486564 7))).
  exists (VStr (lit "abc")), (VDict [ (KInt 0, VInt 79); (KInt 1, VInt 56);
                                      (KInt 2, VFloat (decimal false 55163 3)) ]).
  exists (VStr (lit "a")), (VStr (lit "b")), (VStr (lit "c")).
  exists (VInt 79), (VInt 56), (VFloat (decimal false 55163 3)).
  exists (lit "N"), (lit "E").
  repeat apply conj; reflexivity.
Defined.

Lemma south_negates_north_witness :
  exists lat lon,
    extract_gps_from_exif (rt := sample_runtime) pittsburgh_exif = Return (Some (lat, lon))
    /\ extract_gps_from_exif (rt := sample_runtime) southern_exif
       = Return (Some (fneg lat, lon)).
Proof.
  refine (@south_negates_north sample_runtime southern_exif pittsburgh_exif
            _ _ _ _ _ _ _ _ _ _ (lit "S") (lit "N") (lit "W") (lit "W")
            eq_refl eq_refl eq_refl eq_refl eq_refl eq_refl
            (or_introl eq_refl) (or_introl eq_refl)
            eq_refl eq_refl eq_refl eq_refl eq_refl _ eq_refl).
  vm_compute. discriminate.
Defined.

Lemma malformed_components_witness :
  extract_gps_from_exif (rt := sample_runtime) malformed_exif
  = Return (Some (neg_zero, pos_zero)).
Proof.
  refine (@malformed_components_count_as_zero sample_runtime malformed_exif
            _ _ _ _ _ _ _ _ _ (lit "S") (lit "E")
            eq_refl eq_refl (or_introl eq_refl) eq_refl (or_introl eq_refl)
            eq_refl eq_refl _).
  repeat (apply Forall_cons || apply Forall_nil).
  - left. exists TypeError. reflexivity.
  - left. exists TypeError. reflexivity.
  - right. exists (VInt 5), (VInt 0). split; reflexivity.
  - left. exists TypeError. reflexivity.
  - left. exists TypeError. reflexivity.
  - left. exists TypeError. reflexivity.
Defined.

Lemma decode_exif_entries_witness :
  exists exif_data,
    decode_exif (libs := sample_libraries) gps_image = Return exif_data
    /\ NoDup (map fst exif_data).
Proof.
  eexists. split; [reflexivity|].
  exact (proj1 (@decode_exif_entries sample_libraries gps_image _ eq_refl)).
Defined.

(** With a tag table that does not name the GPS tag, the GPS block of the
    image is decoded but not found. *)
Lemma resolver_after_decode_witness :
  exists exif,
    decode_exif (libs := untabled_libraries) gps_image = Return exif
    /\ extract_gps_from_exif (rt := sample_runtime) exif = Return None.
Proof.
  destruct (@resolver_after_decode sample_runtime untabled_libraries gps_image _ eq_refl)
    as (exif & D & N & _).
  exists exif. split; [exact D|]. apply N.
  intros item [<-|[<-|[<-|[]]]]; vm_compute; discriminate.
Defined.

Lemma extract_iptc_entries_witness :
  exists iptc_data,
    extract_iptc (rt := sample_runtime) (libs := caption_libraries) [] = Return iptc_data
    /\ dict_get iptc_data (KStr (lit "120")) = Some (VStr (lit "Hi")).
Proof.
  destruct (@extract_iptc_entries sample_runtime caption_libraries [] _
              eq_refl eq_refl eq_refl) as (m & E & _ & L & _).
  - intros k [<-|[<-|[]]]; now eexists.
  - exists m. split; [exact E|].
    apply (L [] (KInt 120) [KInt 25] (VBytes [Byte.x48; Byte.x69]) eq_refl eq_refl).
    intros k' [<-|[]]. vm_compute. discriminate.
Defined.


Lemma detect_language_some_witness :
  detect_language (libs := sample_libraries) (lit " hi ") = Return (Some (lit "en")).
Proof.
  apply (proj1 (@detect_language_some sample_libraries (lit " hi "))).
  repeat split. exists 104%N. split; [simpl; tauto|reflexivity].
Defined.

(** With both settings on, the exported summary holds the text and the
    code of the libraries. *)
Lemma main_settings_witness :
  exists exif gps iptc doc,
    json_dumps (rt := sample_runtime)
      (VDict (meta_summary (rt := sample_runtime) photo_upload plain_image
                exif iptc gps (lit "hello") (Some (lit "en")))) = Return doc
    /\ utf8_encode doc = Return hello_document.
Proof.
  destruct (@main_settings sample_runtime sample_libraries photo_upload plain_image
              plain_image true true hello_document (lit "photo_metadata.json") eq_refl)
    as (exif & gps & iptc & t & c & doc & J & U & _ & _ & _ & On & _ & L).
  assert (T : t = lit "hello") by exact (On (lit "hello") eq_refl eq_refl eq_refl).
  subst t.
  assert (C : c = Some (lit "en")).
  { apply (proj2 (L (lit "en"))). repeat split.
    exists 104%N. split; [simpl; tauto|reflexivity]. }
  subst c. now exists exif, gps, iptc, doc.
Defined.

End Checks.
